(** * computeSales.py: price catalogue indexing and sales aggregation

    A shallow embedding of [src/computeSales.py].  Python values decoded from
    JSON are an inductive type, Python's [float] is IEEE-754 binary64 taken
    from the Standard Library's executable specification ([SpecFloat]), the
    price dictionary is a [gmap], and the effects of the program (console
    output, exceptions, the file system, the clock) are threaded through a
    small state-and-exception monad. *)

From Stdlib Require Import ZArith Lia List String Ascii Bool.
From Stdlib Require Import Floats.SpecFloat.
From stdpp Require Import base option gmap strings list fin_maps.

Local Open Scope Z_scope.
Local Set Warnings "-register-all".

(** ** Python floats: IEEE-754 binary64 *)

Module Float64.

Definition prec : Z := 53.
Definition emax : Z := 1024.

Definition float : Type := spec_float.

Definition valid (x : float) : bool := valid_binary prec emax x.

Definition fadd (x y : float) : float := SFadd prec emax x y.
Definition fsub (x y : float) : float := SFsub prec emax x y.
Definition fmul (x y : float) : float := SFmul prec emax x y.

(** [x <= y] on floats; false as soon as one side is a NaN. *)
Definition fleb (x y : float) : bool := SFleb x y.

Definition is_nan (x : float) : bool :=
  match x with S754_nan => true | _ => false end.

(** The double nearest to [m * 2^e] (ties to even); an infinity when the
    rounded value is out of range. *)
Definition dyadic (m e : Z) : float := binary_normalize prec emax m e false.

Definition pos_zero : float := S754_zero false.
Definition pos_inf : float := S754_infinity false.
Definition neg_inf : float := S754_infinity true.

End Float64.

Import Float64.

(** ** Values decoded by [json.load]

    [None] (JSON null), [bool], [int] (unbounded), [float], [str], [list] and
    [dict] with string keys.  A dict is kept as the list of its items; the
    program only reads it, with [dict.get].  The floats of Python are the
    well-formed values of [float] ([valid x = true]); the lemmas that need
    it say so. *)

Inductive pyval : Type :=
| PNone
| PBool (b : bool)
| PInt (n : Z)
| PFloat (x : float)
| PStr (s : string)
| PList (items : list pyval)
| PDict (items : list (string * pyval)).

(** [isinstance(v, dict)], [isinstance(v, list)], [isinstance(v, str)]. *)
Definition isinstance_dict (v : pyval) : bool :=
  match v with PDict _ => true | _ => false end.

Definition isinstance_list (v : pyval) : bool :=
  match v with PList _ => true | _ => false end.

Definition isinstance_str (v : pyval) : bool :=
  match v with PStr _ => true | _ => false end.

(** [isinstance(v, int)]: [bool] is a subclass of [int] in Python, so the
    test holds of [True] and [False] as well. *)
Definition isinstance_int (v : pyval) : bool :=
  match v with PInt _ | PBool _ => true | _ => false end.

(** [isinstance(v, (int, float))]. *)
Definition isinstance_int_float (v : pyval) : bool :=
  match v with PInt _ | PBool _ | PFloat _ => true | _ => false end.

(** [d.get(key)] on the items of a dict: [None] when the key is absent.
    [json.load] keeps one value per key (the last, when a document repeats
    a key), so the items of a decoded dict carry pairwise distinct keys and
    the first match is the only one. *)
Fixpoint items_get (items : list (string * pyval)) (key : string) : pyval :=
  match items with
  | [] => PNone
  | (k, v) :: rest => if String.eqb k key then v else items_get rest key
  end.

(** [v.get(key)] for a value already known to be a dict. *)
Definition py_get (v : pyval) (key : string) : pyval :=
  match v with
  | PDict items => items_get items key
  | _ => PNone
  end.

(** ** Effects: console, files, clock, exceptions *)

Inductive exn : Type :=
| FileNotFoundError
| JSONDecodeError
| OverflowError
| TypeError
| SystemExit (code : Z).

Inductive outcome (A : Type) : Type :=
| Returned (a : A)
| Raised (e : exn).
Arguments Returned {A} a.
Arguments Raised {A} e.

(** The part of the machine the program touches: the lines printed so far,
    the readable text files by name, the names opened for writing so far, and
    the clock ([now k] is the [k]-th reading of [time.time()]). *)
Record world : Type := World {
  stdout : list string;
  disk : gmap string string;
  written : list string;
  now : nat -> float;
  tick : nat
}.

Definition Py (A : Type) : Type := world -> outcome A * world.

Definition ret {A} (a : A) : Py A := fun w => (Returned a, w).

Definition bind {A B} (m : Py A) (k : A -> Py B) : Py B :=
  fun w =>
    match m w with
    | (Returned a, w') => k a w'
    | (Raised e, w') => (Raised e, w')
    end.

Definition raise {A} (e : exn) : Py A := fun w => (Raised e, w).

(** [try: m except ...: handler] *)
Definition try_except {A} (m : Py A) (handler : exn -> Py A) : Py A :=
  fun w =>
    match m w with
    | (Returned a, w') => (Returned a, w')
    | (Raised e, w') => handler e w'
    end.

Declare Scope py_scope.
Delimit Scope py_scope with py.
Notation "x <- m ;; k" := (bind m (fun x => k))
  (at level 100, m at next level, right associativity) : py_scope.
Notation "m ;; k" := (bind m (fun _ => k))
  (at level 100, right associativity) : py_scope.
Local Open Scope py_scope.

(** The world after [lines] have been printed. *)
Definition emit (w : world) (lines : list string) : world :=
  {| stdout := stdout w ++ lines; disk := disk w; written := written w;
     now := now w; tick := tick w |}.

(** [print(text)].  The console is taken to accept every text, so [print]
    returns.  (Python's [print] raises [UnicodeEncodeError] on a text that
    the encoding of the console cannot represent, such as a lone surrogate
    decoded from a JSON escape.  A statement that a call returns is about a
    console that encodes what is printed; a statement made of a call that
    has returned, or that says a call raises, does not depend on it.) *)
Definition print (text : string) : Py unit :=
  fun w => (Returned tt, emit w [text]).

(** A computation without effects that may raise. *)
Definition lift {A} (r : outcome A) : Py A := fun w => (r, w).

(** [sys.exit(code)] *)
Definition sys_exit {A} (code : Z) : Py A := raise (SystemExit code).

(** [for x in items: s = body(x, s)] *)
Fixpoint for_each {A S} (body : A -> S -> Py S) (items : list A) (s : S) : Py S :=
  match items with
  | [] => ret s
  | x :: rest => s' <- body x s ;; for_each body rest s'
  end.

(** ** Numeric conversions of Python *)

(** Conversion of an [int] to a [float]: correctly rounded, and
    [OverflowError] ("int too large to convert to float") when the rounded
    value is not finite. *)
Definition float_of_int (n : Z) : outcome float :=
  match dyadic n 0 with
  | S754_infinity _ => Raised OverflowError
  | x => Returned x
  end.

Definition int_of_bool (b : bool) : Z := if b then 1 else 0.

(** [float(v)] for the values that reach it. *)
Definition py_float (v : pyval) : outcome float :=
  match v with
  | PFloat x => Returned x
  | PInt n => float_of_int n
  | PBool b => float_of_int (int_of_bool b)
  | _ => Raised TypeError
  end.

(** [x * v] for a float [x]: an [int] operand is first converted to a
    float. *)
Definition float_mul (x : float) (v : pyval) : outcome float :=
  match py_float v with
  | Returned y => Returned (fmul x y)
  | Raised e => Raised e
  end.

(** ** The program *)

Definition RESULT_FILE : string := "SalesResults.txt".

Definition print_error (message : string) : Py unit :=
  print ("ERROR: " +:+ message).

(** One iteration of the loop of [build_price_dictionary]. *)
Definition build_price_dictionary_body
    (item : pyval) (prices : gmap string float) : Py (gmap string float) :=
  if negb (isinstance_dict item) then
    print_error "Invalid product entry (skipped)" ;; ret prices
  else
    let title := py_get item "title" in
    let price := py_get item "price" in
    match title with
    | PStr title =>
        if negb (isinstance_int_float price) then
          print_error ("Product '" +:+ title +:+ "' has invalid price (skipped)") ;;
          ret prices
        else
          p <- lift (py_float price) ;; ret (<[title := p]> prices)
    | _ =>
        print_error "Product without valid title (skipped)" ;; ret prices
    end.

Definition build_price_dictionary (catalogue : list pyval) : Py (gmap string float) :=
  for_each build_price_dictionary_body catalogue ∅.

(** One iteration of the loop of [compute_total_sales]. *)
Definition compute_total_sales_body
    (prices : gmap string float) (sale : pyval) (total : float) : Py float :=
  if negb (isinstance_dict sale) then
    print_error "Invalid sale entry (skipped)" ;; ret total
  else
    let product := py_get sale "Product" in
    let quantity := py_get sale "Quantity" in
    match product with
    | PStr product =>
        if negb (isinstance_int quantity) then
          print_error ("Invalid quantity for product '" +:+ product +:+ "' (skipped)") ;;
          ret total
        else
          match prices !! product with
          | None =>
              print_error ("Product '" +:+ product +:+ "' not found in catalogue (skipped)") ;;
              ret total
          | Some price =>
              amount <- lift (float_mul price quantity) ;; ret (fadd total amount)
          end
    | _ =>
        print_error "Sale without valid product name (skipped)" ;; ret total
    end.

Definition compute_total_sales (sales : list pyval) (prices : gmap string float) : Py float :=
  for_each (compute_total_sales_body prices) sales pos_zero.

(** *** Files, the clock and [main]

    [json.loads] and the two float formats of the report are library
    functions of Python; the program is parametric in them. *)

Definition newline : string := String (ascii_of_nat 10) EmptyString.

Section Main.

(** [json.loads]: [None] stands for [json.JSONDecodeError]. *)
Variable json_loads : string -> option pyval.
(** The format [{x:.2f}] and the format [{x}] of a float. *)
Variable format_2f : float -> string.
Variable format_float : float -> string.

(** [open(filename, "r", encoding="utf-8")] followed by reading the text.
    [disk] gives, for a name, the text that reading the file yields; a name
    that is not a key is a missing file.  A file that exists and cannot be
    read as UTF-8 text (bytes that do not decode, a directory, no
    permission) is outside the model: [load_json_file] catches none of the
    exceptions it causes. *)
Definition open_read (filename : string) : Py string :=
  fun w =>
    match disk w !! filename with
    | Some text => (Returned text, w)
    | None => (Raised FileNotFoundError, w)
    end.

(** [json.load]: the value decoded, or [json.JSONDecodeError].  (A document
    on which [json.load] fails otherwise, an integer literal beyond the
    digit limit of [int] or nesting beyond the recursion limit, is outside
    the model as well.) *)
Definition json_load (text : string) : Py pyval :=
  match json_loads text with
  | Some v => ret v
  | None => raise JSONDecodeError
  end.

Definition load_json_file (filename : string) : Py pyval :=
  try_except
    (text <- open_read filename ;; json_load text)
    (fun e =>
       match e with
       | FileNotFoundError =>
           print_error ("File not found: " +:+ filename) ;; sys_exit 1
       | JSONDecodeError =>
           print_error ("Invalid JSON format in file: " +:+ filename) ;; sys_exit 1
       | _ => raise e
       end).

(** [open(RESULT_FILE, "w", encoding="utf-8")] and [file.write(text)].  The
    write is taken to succeed, and files are told apart by the text of their
    names: the result file is the key ["SalesResults.txt"], and another
    spelling of its path is another key. *)
Definition save_results (text : string) : Py unit :=
  fun w =>
    (Returned tt,
     {| stdout := stdout w; disk := <[RESULT_FILE := text]> (disk w);
        written := written w ++ [RESULT_FILE]; now := now w; tick := tick w |}).

(** [time.time()] *)
Definition time_time : Py float :=
  fun w =>
    (Returned (now w (tick w)),
     {| stdout := stdout w; disk := disk w; written := written w;
        now := now w; tick := S (tick w) |}).

(** [main()], with [sys.argv] as its argument. *)
Definition main (argv : list string) : Py unit :=
  start_time <- time_time ;;
  if negb (Nat.eqb (length argv) 3) then
    print "Usage: python computeSales.py priceCatalogue.json salesRecord.json" ;;
    sys_exit 1
  else
    let catalogue_file := nth 1 argv EmptyString in
    let sales_file := nth 2 argv EmptyString in
    catalogue <- load_json_file catalogue_file ;;
    sales <- load_json_file sales_file ;;
    match catalogue with
    | PList catalogue =>
        match sales with
        | PList sales =>
            prices <- build_price_dictionary catalogue ;;
            total_sales <- compute_total_sales sales prices ;;
            end_time <- time_time ;;
            let elapsed_time := fsub end_time start_time in
            let results :=
              "Compute Sales - Results" +:+ newline +:+
              "----------------------" +:+ newline +:+
              "Catalogue file: " +:+ catalogue_file +:+ newline +:+
              "Sales file: " +:+ sales_file +:+ newline +:+ newline +:+
              "TOTAL SALES: " +:+ format_2f total_sales +:+ newline +:+ newline +:+
              "Elapsed time (s): " +:+ format_float elapsed_time +:+ newline in
            print results ;;
            save_results results
        | _ =>
            print_error "Sales file must contain a list" ;; sys_exit 1
        end
    | _ =>
        print_error "Catalogue file must contain a list" ;; sys_exit 1
    end.

End Main.

(** The exit status of the process for an outcome of [main]: 0 on normal
    completion, the argument of [sys.exit], and 1 for an uncaught
    exception. *)
Definition exit_status (r : outcome unit) : Z :=
  match r with
  | Returned _ => 0
  | Raised (SystemExit code) => code
  | Raised _ => 1
  end.

(** ** Vocabulary of the specification

    The words of the specification, defined from the tests of the code. *)

(** A catalogue entry is skipped when it is not a record, its title is not
    text, or its price fails the numeric type test. *)
Definition skipped_entry (item : pyval) : bool :=
  negb (isinstance_dict item)
  || negb (isinstance_str (py_get item "title"))
  || negb (isinstance_int_float (py_get item "price")).

(** A valid catalogue entry, with its title and its price as a float. *)
Definition valid_entry (item : pyval) : option (string * float) :=
  if skipped_entry item then None
  else
    match py_get item "title", py_float (py_get item "price") with
    | PStr title, Returned p => Some (title, p)
    | _, _ => None
    end.

(** The mapping after one entry, as the specification words it. *)
Definition index_entry (prices : gmap string float) (item : pyval) : gmap string float :=
  match valid_entry item with
  | Some (title, p) => <[title := p]> prices
  | None => prices
  end.

(** A valid sale row: a record with a text Product and a Quantity that
    passes the integer type test. *)
Definition valid_sale (sale : pyval) : bool :=
  isinstance_dict sale
  && isinstance_str (py_get sale "Product")
  && isinstance_int (py_get sale "Quantity").

Definition product_of (sale : pyval) : string :=
  match py_get sale "Product" with
  | PStr product => product
  | _ => EmptyString
  end.

(** A valid row is matched when its product is a key of the mapping. *)
Definition matched (prices : gmap string float) (sale : pyval) : bool :=
  valid_sale sale && bool_decide (is_Some (prices !! product_of sale)).

(** Unit price times quantity for a matched row, in Python's arithmetic. *)
Definition sale_amount (prices : gmap string float) (sale : pyval) : outcome float :=
  float_mul (default pos_zero (prices !! product_of sale)) (py_get sale "Quantity").

(** The amount a row contributes: nothing unless it is valid and matched. *)
Definition contribution (prices : gmap string float) (sale : pyval) : option float :=
  if matched prices sale then
    match sale_amount prices sale with
    | Returned amount => Some amount
    | Raised _ => None
    end
  else None.

(** The prices of a mapping are well-formed doubles. *)
Definition wf_prices (prices : gmap string float) : Prop :=
  map_Forall (fun _ p => valid p = true) prices.

(** Every valid, matched row has a quantity that converts to a float. *)
Definition quantities_in_range (prices : gmap string float) (sales : list pyval) : Prop :=
  Forall (fun sale => matched prices sale = true -> is_Some (contribution prices sale)) sales.

(** The sum, in input order, of the contributions of the rows. *)
Definition sum_of_contributions (prices : gmap string float) (sales : list pyval) : float :=
  fold_left fadd (omap (contribution prices) sales) pos_zero.

(** The fatal conditions of a run. *)
Section Fatal.

Variable json_loads : string -> option pyval.

(** What a file loads as: nothing when it is missing or not JSON. *)
Definition loads (w : world) (filename : string) : option pyval :=
  match disk w !! filename with
  | Some text => json_loads text
  | None => None
  end.

Inductive fatal (argv : list string) (w : world) : Prop :=
| fatal_argument_count :
    length argv <> 3%nat -> fatal argv w
| fatal_missing_file (i : nat) :
    length argv = 3%nat -> (i = 1 \/ i = 2)%nat ->
    disk w !! nth i argv EmptyString = None -> fatal argv w
| fatal_invalid_json (i : nat) (text : string) :
    length argv = 3%nat -> (i = 1 \/ i = 2)%nat ->
    disk w !! nth i argv EmptyString = Some text ->
    json_loads text = None -> fatal argv w
| fatal_not_a_list (i : nat) (text : string) (v : pyval) :
    length argv = 3%nat -> (i = 1 \/ i = 2)%nat ->
    disk w !! nth i argv EmptyString = Some text ->
    json_loads text = Some v -> isinstance_list v = false -> fatal argv w.

End Fatal.

(** ** Concrete data *)

Definition record2 (k1 : string) (v1 : pyval) (k2 : string) (v2 : pyval) : pyval :=
  PDict [(k1, v1); (k2, v2)].

Definition product_entry (title : string) (price : pyval) : pyval :=
  record2 "title" (PStr title) "price" price.

Definition sale_row (product : string) (quantity : pyval) : pyval :=
  record2 "Product" (PStr product) "Quantity" quantity.

(** An empty console, no files, a clock stuck at zero. *)
Definition quiet_world : world :=
  {| stdout := []; disk := ∅; written := []; now := fun _ => pos_zero; tick := 0 |}.

(** [[{"title":"Widget","price":2.5},{"title":"Gadget","price":10}]] *)
Definition example_catalogue : list pyval :=
  [product_entry "Widget" (PFloat (dyadic 5 (-1))); product_entry "Gadget" (PInt 10)].

(** [[{"Product":"Widget","Quantity":4},{"Product":"Gizmo","Quantity":1},
     {"Product":"Gadget","Quantity":2}]] *)
Definition example_sales : list pyval :=
  [sale_row "Widget" (PInt 4); sale_row "Gizmo" (PInt 1); sale_row "Gadget" (PInt 2)].

Definition example_prices : gmap string float :=
  <["Gadget" := dyadic 10 0]> (<["Widget" := dyadic 5 (-1)]> ∅).

(** The doubles [1.0] and [30.0]. *)
Definition one : float := S754_finite false 4503599627370496 (-52).
Definition thirty : float := S754_finite false 8444249301319680 (-48).

(** A quantity beyond the range of the doubles. *)
Definition huge : Z := 2 ^ 1024.

(** A decoder that knows two documents, and a run whose catalogue file
    holds a JSON object. *)
Definition toy_json_loads (text : string) : option pyval :=
  if String.eqb text "[]" then Some (PList [])
  else if String.eqb text "{}" then Some (PDict [])
  else None.

Definition toy_format (x : float) : string := "?".

Definition example_argv : list string :=
  ["computeSales.py"; "catalogue.json"; "sales.json"]%string.

Definition object_catalogue_world : world :=
  {| stdout := [];
     disk := <["sales.json" := "[]"]> (<["catalogue.json" := "{}"]> ∅);
     written := []; now := fun _ => pos_zero; tick := 0 |}.

(** [float(b)] for a boolean [b]. *)
Definition float_of_bool (b : bool) : float := if b then one else pos_zero.

(** ** Vocabulary for the runs as a whole *)

(** A line printed by [print_error]. *)
Definition is_error_line (line : string) : Prop :=
  exists message, line = "ERROR: " +:+ message.

(** How many elements of a list pass a test. *)
Fixpoint count_if {A} (test : A -> bool) (l : list A) : nat :=
  match l with
  | [] => 0
  | x :: rest => (if test x then 1 else 0) + count_if test rest
  end.

(** The price of an entry when it is a valid entry for [title]. *)
Definition price_for (title : string) (item : pyval) : option float :=
  match valid_entry item with
  | Some (t, p) => if String.eqb t title then Some p else None
  | None => None
  end.

(** The price of the last valid entry for [title], if there is one. *)
Definition last_valid_price (catalogue : list pyval) (title : string) : option float :=
  last (omap (price_for title) catalogue).

(** The titles of the valid entries, in input order. *)
Definition valid_titles (catalogue : list pyval) : list string :=
  omap (fun item => fst <$> valid_entry item) catalogue.

(** An entry is handled when it is skipped or valid: it does not raise. *)
Definition handled_entry (item : pyval) : Prop :=
  skipped_entry item = true \/ is_Some (valid_entry item).

(** The integer a Quantity stands for when it passes the integer test. *)
Definition int_quantity (v : pyval) : option Z :=
  match v with
  | PInt n => Some n
  | PBool b => Some (int_of_bool b)
  | _ => None
  end.

(** The world after the first reading of the clock. *)
Definition started (w : world) : world :=
  {| stdout := stdout w; disk := disk w; written := written w;
     now := now w; tick := S (tick w) |}.

(** The floating-point prices of a catalogue are well-formed doubles (as
    every float that [json.load] yields is). *)
Definition wf_catalogue (catalogue : list pyval) : Prop :=
  Forall (fun item => forall x, py_get item "price" = PFloat x -> valid x = true)
         catalogue.

(** Integer prices and quantities: the amount of a row and the total of a
    sales list, computed in the integers. *)
Definition int_contribution (int_prices : gmap string Z) (sale : pyval) : Z :=
  if valid_sale sale then
    match int_prices !! product_of sale, int_quantity (py_get sale "Quantity") with
    | Some price, Some quantity => price * quantity
    | _, _ => 0
    end
  else 0.

Definition int_total (int_prices : gmap string Z) (sales : list pyval) : Z :=
  foldr Z.add 0 (map (int_contribution int_prices) sales).

(** The mapping that [float(price)] gives for integer prices. *)
Definition float_prices (int_prices : gmap string Z) : gmap string float :=
  (fun n => dyadic n 0) <$> int_prices.

(** The text of the report, as [main] lays it out. *)
Definition report_text (format_2f format_float : float -> string)
    (catalogue_file sales_file : string) (total_sales elapsed_time : float) : string :=
  "Compute Sales - Results" +:+ newline +:+
  "----------------------" +:+ newline +:+
  "Catalogue file: " +:+ catalogue_file +:+ newline +:+
  "Sales file: " +:+ sales_file +:+ newline +:+ newline +:+
  "TOTAL SALES: " +:+ format_2f total_sales +:+ newline +:+ newline +:+
  "Elapsed time (s): " +:+ format_float elapsed_time +:+ newline.

(** A decoder for two more documents: the catalogue and the sales of the
    scenario, under the names [catalogue] and [sales]. *)
Definition scenario_json_loads (text : string) : option pyval :=
  if String.eqb text "catalogue" then Some (PList example_catalogue)
  else if String.eqb text "sales" then Some (PList example_sales)
  else None.

Definition scenario_world : world :=
  {| stdout := [];
     disk := <["sales.json" := "sales"]> (<["catalogue.json" := "catalogue"]> ∅);
     written := []; now := fun _ => pos_zero; tick := 0 |}.

(** A format that tells [30.0] from the other doubles. *)
Definition scenario_format (x : float) : string :=
  if SFeqb x thirty then "30.00" else "other".

(** ** The monad and the loops *)

Lemma emit_nil w : emit w [] = w.
Proof. destruct w; unfold emit; simpl. by rewrite app_nil_r. Qed.

Lemma emit_emit w l1 l2 : emit (emit w l1) l2 = emit w (l1 ++ l2).
Proof. unfold emit; simpl. by rewrite app_assoc. Qed.

Lemma print_error_run message (w : world) :
  print_error message w = (Returned tt, emit w ["ERROR: " +:+ message]).
Proof. reflexivity. Qed.

Lemma for_each_app {A S} (body : A -> S -> Py S) (l1 l2 : list A) (s : S) (w : world) :
  for_each body (l1 ++ l2) s w =
  match for_each body l1 s w with
  | (Returned s', w') => for_each body l2 s' w'
  | (Raised e, w') => (Raised e, w')
  end.
Proof.
  revert s w. induction l1 as [|x l1 IH]; intros s w; simpl.
  - reflexivity.
  - unfold bind. destruct (body x s w) as [[s'|e] w']; [apply IH | reflexivity].
Qed.

(** ** Binary64 arithmetic: how a sum compares with its first term

    [SpecFloat] gives the operations and no lemma about them.  The facts
    below follow the rounding of an exact sum through [binary_round]: the
    alignment, the first shift to the target exponent, rounding to nearest
    even, and the second shift after a carry. *)

Lemma fexp_eq e : fexp prec emax e = Z.max (e - 53) (-1074).
Proof. reflexivity. Qed.

Lemma digits2_pos_bounds (p : positive) :
  2 ^ (Zpos (digits2_pos p) - 1) <= Zpos p < 2 ^ Zpos (digits2_pos p).
Proof.
  induction p as [p IH|p IH|]; simpl digits2_pos.
  - rewrite Pos2Z.inj_succ.
    replace (Z.succ (Zpos (digits2_pos p)) - 1) with (Z.succ (Zpos (digits2_pos p) - 1)) by lia.
    rewrite !Z.pow_succ_r by lia. lia.
  - rewrite Pos2Z.inj_succ.
    replace (Z.succ (Zpos (digits2_pos p)) - 1) with (Z.succ (Zpos (digits2_pos p) - 1)) by lia.
    rewrite !Z.pow_succ_r by lia. lia.
  - simpl. lia.
Qed.

Lemma digits_unique (m d : Z) :
  0 < m -> 2 ^ (d - 1) <= m < 2 ^ d -> Zdigits2 m = d.
Proof.
  intros Hm [Hl Hu]. destruct m as [|p|p]; try lia. simpl.
  pose proof (digits2_pos_bounds p) as [Hl' Hu'].
  assert (0 < d).
  { destruct (Z_lt_le_dec 0 d) as [|Hd]; [lia|]. exfalso.
    assert (2 ^ d <= 1).
    { destruct (Z.eq_dec d 0) as [->|]; [simpl; lia | rewrite Z.pow_neg_r; lia]. }
    lia. }
  destruct (Z.lt_trichotomy (Zpos (digits2_pos p)) d) as [H1|[H1|H1]]; [|exact H1|].
  - assert (2 ^ Zpos (digits2_pos p) <= 2 ^ (d - 1)) by (apply Z.pow_le_mono_r; lia). lia.
  - assert (2 ^ d <= 2 ^ (Zpos (digits2_pos p) - 1)) by (apply Z.pow_le_mono_r; lia). lia.
Qed.

Lemma digits_bounds (m : Z) : 0 < m -> 2 ^ (Zdigits2 m - 1) <= m < 2 ^ Zdigits2 m.
Proof. destruct m; try lia. intros _. apply digits2_pos_bounds. Qed.

Lemma digits_pos (m : Z) : 0 < m -> 0 < Zdigits2 m.
Proof. destruct m; simpl; lia. Qed.

Lemma digits_nonneg (m : Z) : 0 <= Zdigits2 m.
Proof. destruct m; simpl; lia. Qed.

Lemma digits_mono (a b : Z) : 0 < a -> a <= b -> Zdigits2 a <= Zdigits2 b.
Proof.
  intros Ha Hab.
  pose proof (digits_bounds a Ha) as [Hal Hau].
  pose proof (digits_bounds b ltac:(lia)) as [Hbl Hbu].
  destruct (Z_le_gt_dec (Zdigits2 a) (Zdigits2 b)) as [|Hgt]; [assumption|].
  assert (2 ^ Zdigits2 b <= 2 ^ (Zdigits2 a - 1)) by (apply Z.pow_le_mono_r; lia). lia.
Qed.

Lemma digits_shift (m k : Z) : 0 < m -> 0 <= k -> Zdigits2 (m * 2 ^ k) = Zdigits2 m + k.
Proof.
  intros Hm Hk. pose proof (digits_bounds m Hm) as [Hl Hu].
  pose proof (digits_pos m Hm).
  assert (0 < 2 ^ k) by (apply Z.pow_pos_nonneg; lia).
  apply digits_unique; [nia|].
  replace (Zdigits2 m + k - 1) with ((Zdigits2 m - 1) + k) by lia.
  rewrite !Z.pow_add_r by lia. nia.
Qed.

Lemma digits_lt_pow (m d : Z) : 0 < m -> m < 2 ^ d -> Zdigits2 m <= d.
Proof.
  intros Hm Hu. pose proof (digits_bounds m Hm) as [Hl _].
  destruct (Z_le_gt_dec (Zdigits2 m) d); [assumption|].
  assert (2 ^ d <= 2 ^ (Zdigits2 m - 1)) by (apply Z.pow_le_mono_r; lia). lia.
Qed.

Lemma digits_ge_pow (m d : Z) : 0 <= d -> 2 ^ d <= m -> d + 1 <= Zdigits2 m.
Proof.
  intros Hd Hl. assert (0 < 2 ^ d) by (apply Z.pow_pos_nonneg; lia).
  pose proof (digits_bounds m ltac:(lia)) as [_ Hu].
  destruct (Z_le_gt_dec (d + 1) (Zdigits2 m)); [assumption|].
  assert (2 ^ Zdigits2 m <= 2 ^ d) by (apply Z.pow_le_mono_r; [lia|lia]). lia.
Qed.

Lemma shr_1_m (r : shr_record) : 0 <= shr_m r -> shr_m (shr_1 r) = shr_m r / 2.
Proof.
  destruct r as [m rb sb]. simpl. intros Hm.
  destruct m as [|p|p]; [reflexivity| |lia].
  destruct p as [p|p|]; simpl shr_m.
  - rewrite Pos2Z.inj_xI. apply Z.div_unique with (r := 1); lia.
  - rewrite Pos2Z.inj_xO. apply Z.div_unique with (r := 0); lia.
  - reflexivity.
Qed.

Lemma iter_shr_1_m (p : positive) (r : shr_record) :
  0 <= shr_m r -> shr_m (SpecFloat.iter_pos shr_1 p r) = shr_m r / 2 ^ Zpos p.
Proof.
  revert r. induction p as [p IH|p IH|]; intros r Hr; simpl SpecFloat.iter_pos.
  - assert (Hpos : 0 < 2 ^ Zpos p) by (apply Z.pow_pos_nonneg; lia).
    assert (Hp : 2 ^ Zpos p~1 = 2 * 2 ^ Zpos p * 2 ^ Zpos p).
    { replace 2 with (2 ^ 1) at 2 by reflexivity.
      rewrite <- !Z.pow_add_r by lia. f_equal. lia. }
    assert (H1 : 0 <= shr_m (shr_1 r)) by (rewrite shr_1_m by lia; apply Z.div_pos; lia).
    assert (H2 : 0 <= shr_m (SpecFloat.iter_pos shr_1 p (shr_1 r))).
    { rewrite IH by lia. apply Z.div_pos; lia. }
    rewrite IH by lia. rewrite IH by lia. rewrite shr_1_m by lia.
    rewrite Hp. rewrite !Z.div_div by lia. f_equal; lia.
  - assert (Hpos : 0 < 2 ^ Zpos p) by (apply Z.pow_pos_nonneg; lia).
    assert (Hp : 2 ^ Zpos p~0 = 2 ^ Zpos p * 2 ^ Zpos p).
    { rewrite <- Z.pow_add_r by lia. f_equal. lia. }
    assert (H2 : 0 <= shr_m (SpecFloat.iter_pos shr_1 p r)).
    { rewrite IH by lia. apply Z.div_pos; lia. }
    rewrite IH by lia. rewrite IH by lia.
    rewrite Hp. rewrite !Z.div_div by lia. f_equal; lia.
  - rewrite shr_1_m by lia. reflexivity.
Qed.

(** shifting by [n]: nothing for [n <= 0], floor division by [2^n] else *)
Lemma shr_spec (r : shr_record) (e n : Z) :
  0 <= shr_m r ->
  shr_m (fst (shr r e n)) = shr_m r / 2 ^ Z.max n 0
  /\ snd (shr r e n) = e + Z.max n 0
  /\ (n <= 0 -> fst (shr r e n) = r).
Proof.
  intros Hr. destruct n as [|p|p]; simpl.
  - rewrite Z.div_1_r. repeat split; lia.
  - rewrite iter_shr_1_m by lia. repeat split; lia.
  - rewrite Z.div_1_r. repeat split; lia.
Qed.

Lemma shr_record_of_loc_m m l : shr_m (shr_record_of_loc m l) = m.
Proof. destruct l as [|[]]; reflexivity. Qed.

Lemma loc_of_shr_record_of_loc m l : loc_of_shr_record (shr_record_of_loc m l) = l.
Proof. destruct l as [|[]]; reflexivity. Qed.

Lemma round_nearest_even_bounds m l :
  m <= round_nearest_even m l <= m + 1.
Proof.
  unfold round_nearest_even. destruct l as [|[]]; try lia.
  destruct (Z.even m); lia.
Qed.

Lemma round_nearest_even_exact m : round_nearest_even m loc_Exact = m.
Proof. reflexivity. Qed.

(** The outcome of [binary_round_aux] on an exact positive mantissa. *)
Lemma binary_round_aux_spec (sx : bool) (mx ex : Z) :
  0 < mx ->
  let n1 := Z.max (fexp prec emax (Zdigits2 mx + ex) - ex) 0 in
  let m2 := mx / 2 ^ n1 in
  let e2 := ex + n1 in
  exists m3,
    m2 <= m3 <= m2 + 1 /\ (n1 = 0 -> m3 = mx) /\
    let n2 := Z.max (fexp prec emax (Zdigits2 m3 + e2) - e2) 0 in
    binary_round_aux prec emax sx mx ex loc_Exact =
    match m3 / 2 ^ n2 with
    | Z0 => S754_zero sx
    | Zpos m => if e2 + n2 <=? emax - prec then S754_finite sx m (e2 + n2)
                else S754_infinity sx
    | Zneg _ => S754_nan
    end.
Proof.
  intros Hm n1 m2 e2. unfold binary_round_aux, shr_fexp.
  set (r0 := shr_record_of_loc mx loc_Exact).
  assert (Hr0 : 0 <= shr_m r0) by (simpl; lia).
  destruct (shr_spec r0 ex (fexp prec emax (Zdigits2 mx + ex) - ex) Hr0) as (Hm1 & He1 & Hx1).
  destruct (shr r0 ex (fexp prec emax (Zdigits2 mx + ex) - ex)) as [mrs' e'] eqn:Hs1.
  simpl in Hm1, He1, Hx1. fold n1 in Hm1, He1. fold m2 in Hm1. fold e2 in He1. subst e'.
  set (m3 := round_nearest_even (shr_m mrs') (loc_of_shr_record mrs')).
  exists m3.
  assert (Hm2 : 0 <= m2) by (apply Z.div_pos; [lia | apply Z.pow_pos_nonneg; lia]).
  pose proof (round_nearest_even_bounds (shr_m mrs') (loc_of_shr_record mrs')) as Hb.
  fold m3 in Hb. rewrite Hm1 in Hb.
  split; [exact Hb|]. split.
  { intros Hn. unfold m3. rewrite Hx1 by lia. reflexivity. }
  cbv zeta. set (n2 := Z.max (fexp prec emax (Zdigits2 m3 + e2) - e2) 0).
  set (r1 := shr_record_of_loc m3 loc_Exact).
  assert (Hr1 : 0 <= shr_m r1) by (simpl; lia).
  destruct (shr_spec r1 e2 (fexp prec emax (Zdigits2 m3 + e2) - e2) Hr1) as (Hm4 & He4 & _).
  destruct (shr r1 e2 (fexp prec emax (Zdigits2 m3 + e2) - e2)) as [mrs'' e''] eqn:Hs2.
  simpl in Hm4, He4. fold n2 in Hm4, He4. subst e''. rewrite Hm4. reflexivity.
Qed.

Lemma iter_xO_pow (m d : positive) : Zpos (Pos.iter xO m d) = Zpos m * 2 ^ Zpos d.
Proof.
  induction d as [|d IH] using Pos.peano_ind.
  - simpl. lia.
  - rewrite Pos.iter_succ, Pos2Z.inj_xO, IH, Pos2Z.inj_succ, Z.pow_succ_r by lia. lia.
Qed.

Lemma shl_align_spec (mx : positive) (ex ex' : Z) :
  snd (shl_align mx ex ex') = Z.min ex ex'
  /\ Zpos (fst (shl_align mx ex ex')) = Zpos mx * 2 ^ (ex - Z.min ex ex').
Proof.
  unfold shl_align. destruct (ex' - ex) as [|d|d] eqn:Hd; simpl.
  - replace (Z.min ex ex') with ex by lia. rewrite Z.sub_diag. simpl. lia.
  - replace (Z.min ex ex') with ex by lia. rewrite Z.sub_diag. simpl. lia.
  - replace (Z.min ex ex') with ex' by lia.
    replace (ex - ex') with (Zpos d) by lia. split; [reflexivity | apply iter_xO_pow].
Qed.

Lemma binary_round_spec (sx : bool) (s : positive) (ez : Z) :
  let E := fexp prec emax (Zpos (digits2_pos s) + ez) in
  exists M e1 m3,
    0 < M /\ e1 <= ez /\ e1 <= E /\ M = Zpos s * 2 ^ (ez - e1) /\
    M / 2 ^ (E - e1) <= m3 <= M / 2 ^ (E - e1) + 1 /\ (E = e1 -> m3 = M) /\
    binary_round prec emax sx s ez =
      match m3 / 2 ^ Z.max (Zdigits2 m3 - prec) 0 with
      | Z0 => S754_zero sx
      | Zpos m =>
          if E + Z.max (Zdigits2 m3 - prec) 0 <=? emax - prec
          then S754_finite sx m (E + Z.max (Zdigits2 m3 - prec) 0)
          else S754_infinity sx
      | Zneg _ => S754_nan
      end.
Proof.
  intros E. unfold binary_round.
  destruct (shl_align_spec s ez (fexp prec emax (Zpos (digits2_pos s) + ez))) as [He1 HM].
  fold E in He1, HM.
  destruct (shl_align s ez E) as [mz e1] eqn:Hsh. cbn [fst snd] in He1, HM.
  assert (Hpow : 0 < 2 ^ (ez - e1)) by (apply Z.pow_pos_nonneg; lia).
  assert (Hdig : Zdigits2 (Zpos mz) + e1 = Zpos (digits2_pos s) + ez).
  { rewrite HM, <- He1. rewrite digits_shift by lia.
    change (Zdigits2 (Zpos s)) with (Zpos (digits2_pos s)). lia. }
  destruct (binary_round_aux_spec sx (Zpos mz) e1 ltac:(lia)) as (m3 & Hb & Hx & Hr).
  cbv zeta in Hr. rewrite Hdig in Hb, Hx, Hr. fold E in Hb, Hx, Hr.
  assert (HE : -1074 <= E) by (unfold E; rewrite fexp_eq; lia).
  replace (Z.max (E - e1) 0) with (E - e1) in Hb, Hx, Hr by lia.
  replace (e1 + (E - e1)) with E in Hr by lia.
  replace (Z.max (fexp prec emax (Zdigits2 m3 + E) - E) 0)
    with (Z.max (Zdigits2 m3 - prec) 0) in Hr
    by (rewrite fexp_eq; unfold prec; lia).
  exists (Zpos mz), e1, m3.
  split; [lia|]. split; [lia|]. split; [lia|].
  split; [rewrite HM, <- He1; reflexivity|].
  split; [exact Hb|]. split; [intros HEe; apply Hx; lia |].
  unfold E in Hsh. rewrite Hsh. exact Hr.
Qed.

Lemma bounded_spec (mt : positive) (et : Z) :
  bounded prec emax mt et = true ->
  et = Z.max (Zpos (digits2_pos mt) + et - 53) (-1074) /\ et <= 971.
Proof.
  unfold bounded, canonical_mantissa. intros H.
  apply andb_prop in H as [Hc He].
  apply Z.eqb_eq in Hc. rewrite fexp_eq in Hc. apply Z.leb_le in He.
  unfold emax, prec in He. lia.
Qed.

Lemma pow_le_digits (m k : Z) : 0 < m -> k <= Zdigits2 m - 1 -> 2 ^ k <= m.
Proof.
  intros Hm Hk. pose proof (digits_bounds m Hm) as [Hl _].
  destruct (Z_lt_le_dec k 0) as [Hneg|Hpos].
  - rewrite Z.pow_neg_r by lia. lia.
  - assert (2 ^ k <= 2 ^ (Zdigits2 m - 1)) by (apply Z.pow_le_mono_r; lia). lia.
Qed.

Lemma leb_finite_pos (m1 m2 : positive) (e1 e2 : Z) :
  e1 < e2 \/ (e1 = e2 /\ Zpos m1 <= Zpos m2) ->
  SFleb (S754_finite false m1 e1) (S754_finite false m2 e2) = true.
Proof.
  unfold SFleb, SFcompare. intros [H|[-> H]].
  - apply Z.compare_lt_iff in H. rewrite H. reflexivity.
  - rewrite Z.compare_refl. change (Pos.compare_cont Eq m1 m2) with (Pos.compare m1 m2).
    destruct (Pos.compare_spec m1 m2); try reflexivity. lia.
Qed.

Lemma leb_finite_neg (m1 m2 : positive) (e1 e2 : Z) :
  e2 < e1 \/ (e1 = e2 /\ Zpos m2 <= Zpos m1) ->
  SFleb (S754_finite true m1 e1) (S754_finite true m2 e2) = true.
Proof.
  unfold SFleb, SFcompare. intros [H|[-> H]].
  - apply Z.compare_gt_iff in H. rewrite H. reflexivity.
  - rewrite Z.compare_refl. change (Pos.compare_cont Eq m1 m2) with (Pos.compare m1 m2).
    destruct (Pos.compare_spec m1 m2); try reflexivity. lia.
Qed.

(** Rounding a value at or above a positive float does not go below it. *)
Lemma binary_round_ge (mt s : positive) (et ez : Z) :
  bounded prec emax mt et = true ->
  ez <= et ->
  Zpos mt * 2 ^ (et - ez) <= Zpos s ->
  SFleb (S754_finite false mt et) (binary_round prec emax false s ez) = true.
Proof.
  intros Hbd Hez Hle.
  destruct (bounded_spec _ _ Hbd) as [Hcan Hmax].
  destruct (binary_round_spec false s ez) as (M & e1 & m3 & HM0 & He1z & He1E & HM & Hb & _ & Hr).
  rewrite Hr. clear Hr.
  set (E := fexp prec emax (Zpos (digits2_pos s) + ez)) in *.
  assert (HE : E = Z.max (Zpos (digits2_pos s) + ez - 53) (-1074)) by (unfold E; apply fexp_eq).
  assert (Hp1 : 0 < 2 ^ (et - ez)) by (apply Z.pow_pos_nonneg; lia).
  assert (Hp2 : 0 < 2 ^ (ez - e1)) by (apply Z.pow_pos_nonneg; lia).
  assert (Hp3 : 0 < 2 ^ (E - e1)) by (apply Z.pow_pos_nonneg; lia).
  (* magnitudes *)
  assert (Hdig : Zpos (digits2_pos mt) + (et - ez) <= Zpos (digits2_pos s)).
  { change (Zpos (digits2_pos mt)) with (Zdigits2 (Zpos mt)).
    rewrite <- digits_shift by lia.
    change (Zpos (digits2_pos s)) with (Zdigits2 (Zpos s)).
    apply digits_mono; [nia | exact Hle]. }
  assert (HEt : et <= E) by lia.
  assert (HdM : Zdigits2 M = Zpos (digits2_pos s) + (ez - e1)).
  { rewrite HM. rewrite digits_shift by lia. reflexivity. }
  assert (HMt : 2 ^ (et - e1) * Zpos mt <= M).
  { replace (et - e1) with ((et - ez) + (ez - e1)) by lia.
    rewrite Z.pow_add_r by lia. rewrite HM. nia. }
  (* the first shift keeps a positive mantissa *)
  assert (Hm2 : 1 <= M / 2 ^ (E - e1)).
  { apply Z.div_le_lower_bound; [lia|]. rewrite Z.mul_1_r.
    apply pow_le_digits; [lia|]. pose proof (Pos2Z.is_pos (digits2_pos mt)). lia. }
  assert (Hm3 : 1 <= m3) by lia.
  set (n2 := Z.max (Zdigits2 m3 - prec) 0).
  assert (Hn2 : 0 <= n2) by (unfold n2; lia).
  assert (Hp4 : 0 < 2 ^ n2) by (apply Z.pow_pos_nonneg; lia).
  assert (Hm4 : 1 <= m3 / 2 ^ n2).
  { apply Z.div_le_lower_bound; [lia|]. rewrite Z.mul_1_r.
    apply pow_le_digits; [lia|]. pose proof (digits_pos m3 ltac:(lia)).
    unfold n2, prec. lia. }
  destruct (m3 / 2 ^ n2) as [|m4|m4] eqn:Hq; try lia.
  destruct (E + n2 <=? emax - prec); [|reflexivity].
  apply leb_finite_pos.
  destruct (Z.eq_dec et (E + n2)) as [Heq|Hne]; [right|left; lia].
  split; [exact Heq|].
  assert (n2 = 0) by lia. assert (E = et) by lia.
  assert (Hq' : Zpos m4 = m3) by (rewrite <- Hq; replace n2 with 0 by lia; apply Z.div_1_r).
  rewrite Hq'.
  assert (Zpos mt <= M / 2 ^ (E - e1)).
  { apply Z.div_le_lower_bound; [lia|]. replace E with et by lia. exact HMt. }
  lia.
Qed.

(** Rounding never yields a NaN, and keeps the sign it is given. *)
Lemma binary_round_sign (sx : bool) (s : positive) (ez : Z) :
  binary_round prec emax sx s ez = S754_zero sx
  \/ binary_round prec emax sx s ez = S754_infinity sx
  \/ exists m e, binary_round prec emax sx s ez = S754_finite sx m e.
Proof.
  destruct (binary_round_spec sx s ez) as (M & e1 & m3 & HM0 & He1z & He1E & HM & Hb & _ & Hr).
  rewrite Hr. clear Hr.
  set (E := fexp prec emax (Zpos (digits2_pos s) + ez)) in *.
  assert (Hp3 : 0 < 2 ^ (E - e1)) by (apply Z.pow_pos_nonneg; lia).
  assert (0 <= M / 2 ^ (E - e1)) by (apply Z.div_pos; lia).
  set (n2 := Z.max (Zdigits2 m3 - prec) 0).
  assert (Hp4 : 0 < 2 ^ n2) by (apply Z.pow_pos_nonneg; unfold n2; lia).
  assert (0 <= m3 / 2 ^ n2) by (apply Z.div_pos; lia).
  destruct (m3 / 2 ^ n2) as [|m4|m4]; [auto| |lia].
  destruct (E + n2 <=? emax - prec); eauto.
Qed.

(** Rounding a magnitude below that of a negative float does not go
    below the float. *)
Lemma binary_round_le (mt s : positive) (et ez : Z) :
  bounded prec emax mt et = true ->
  ez <= et ->
  Zpos s < Zpos mt * 2 ^ (et - ez) ->
  SFleb (S754_finite true mt et) (binary_round prec emax true s ez) = true.
Proof.
  intros Hbd Hez Hlt.
  destruct (bounded_spec _ _ Hbd) as [Hcan Hmax].
  destruct (binary_round_spec true s ez) as (M & e1 & m3 & HM0 & He1z & He1E & HM & Hb & _ & Hr).
  rewrite Hr. clear Hr.
  set (E := fexp prec emax (Zpos (digits2_pos s) + ez)) in *.
  assert (HE : E = Z.max (Zpos (digits2_pos s) + ez - 53) (-1074)) by (unfold E; apply fexp_eq).
  assert (Hp1 : 0 < 2 ^ (et - ez)) by (apply Z.pow_pos_nonneg; lia).
  assert (Hp2 : 0 < 2 ^ (ez - e1)) by (apply Z.pow_pos_nonneg; lia).
  assert (Hp3 : 0 < 2 ^ (E - e1)) by (apply Z.pow_pos_nonneg; lia).
  pose proof (Pos2Z.is_pos (digits2_pos mt)) as Hdt.
  pose proof (Pos2Z.is_pos (digits2_pos s)) as Hds.
  (* magnitudes *)
  assert (Hdig : Zpos (digits2_pos s) <= Zpos (digits2_pos mt) + (et - ez)).
  { change (Zpos (digits2_pos mt)) with (Zdigits2 (Zpos mt)).
    rewrite <- digits_shift by lia.
    change (Zpos (digits2_pos s)) with (Zdigits2 (Zpos s)).
    apply digits_mono; lia. }
  assert (HEt : E <= et) by lia.
  assert (HdM : Zdigits2 M = Zpos (digits2_pos s) + (ez - e1)).
  { rewrite HM. rewrite digits_shift by lia. reflexivity. }
  assert (HMt : M < 2 ^ (et - e1) * Zpos mt).
  { replace (et - e1) with ((et - ez) + (ez - e1)) by lia.
    rewrite Z.pow_add_r by lia. rewrite HM. nia. }
  assert (Hm2 : 0 <= M / 2 ^ (E - e1)) by (apply Z.div_pos; lia).
  (* after the first shift the mantissa has at most 53 bits *)
  assert (Hm2u : M / 2 ^ (E - e1) < 2 ^ 53).
  { apply Z.div_lt_upper_bound; [lia|].
    rewrite <- Z.pow_add_r by lia.
    pose proof (digits_bounds M HM0) as [_ Hu].
    assert (2 ^ Zdigits2 M <= 2 ^ (E - e1 + 53)) by (apply Z.pow_le_mono_r; lia).
    lia. }
  set (n2 := Z.max (Zdigits2 m3 - prec) 0).
  assert (Hn2 : 0 <= n2) by (unfold n2; lia).
  assert (Hp4 : 0 < 2 ^ n2) by (apply Z.pow_pos_nonneg; lia).
  assert (Hm4 : 0 <= m3 / 2 ^ n2) by (apply Z.div_pos; lia).
  (* where the result lies with respect to [(mt, et)] *)
  assert (Hres : E + n2 < et \/ (E + n2 = et /\ m3 / 2 ^ n2 <= Zpos mt)).
  { destruct (Z.eq_dec m3 0) as [->|Hm3].
    { assert (n2 = 0) by (unfold n2; simpl; unfold prec; lia).
      replace n2 with 0 by lia. simpl (2 ^ 0). rewrite Z.div_1_r. lia. }
    assert (Hm3p : 0 < m3) by lia.
    destruct (Z.eq_dec E et) as [HEe|HEne].
    - (* same exponent: the mantissa stays below [mt] *)
      assert (M / 2 ^ (E - e1) < Zpos mt).
      { apply Z.div_lt_upper_bound; [lia|]. rewrite HEe. exact HMt. }
      assert (Hle3 : m3 <= Zpos mt) by lia.
      assert (Zdigits2 m3 <= Zpos (digits2_pos mt)).
      { change (Zpos (digits2_pos mt)) with (Zdigits2 (Zpos mt)). apply digits_mono; lia. }
      assert (n2 = 0) by (unfold n2, prec; lia).
      right. replace n2 with 0 by lia. simpl (2 ^ 0). rewrite Z.div_1_r. lia.
    - (* smaller exponent: [(mt, et)] is normal *)
      assert (Hnorm : Zpos (digits2_pos mt) = 53) by lia.
      assert (Hmt : 2 ^ 52 <= Zpos mt).
      { pose proof (digits2_pos_bounds mt) as [Hl _]. rewrite Hnorm in Hl. exact Hl. }
      assert (Hm3u : m3 <= 2 ^ 53) by lia.
      assert (Hd3 : Zdigits2 m3 <= 54).
      { apply digits_lt_pow; [lia|]. change (2 ^ 54) with (2 * 2 ^ 53). lia. }
      destruct (Z_le_gt_dec (Zdigits2 m3) 53) as [Hs|Hs].
      + assert (n2 = 0) by (unfold n2, prec; lia). left. lia.
      + assert (n2 = 1) by (unfold n2, prec; lia).
        destruct (Z.eq_dec (E + n2) et) as [He|He]; [right|left; lia].
        split; [exact He|]. replace n2 with 1 by lia.
        transitivity (2 ^ 52); [|exact Hmt].
        apply Z.div_le_upper_bound; [lia|].
        change (2 ^ 1 * 2 ^ 52) with (2 ^ 53). exact Hm3u. }
  destruct (m3 / 2 ^ n2) as [|m4|m4] eqn:Hq; [reflexivity| |lia].
  assert (Hfin : (E + n2 <=? emax - prec) = true) by (apply Z.leb_le; unfold emax, prec; lia).
  rewrite Hfin. apply leb_finite_neg. lia.
Qed.

(** Rounding commutes with the sign, and so does the order. *)
Lemma binary_round_opp (s : positive) (e : Z) :
  binary_round prec emax true s e = SFopp (binary_round prec emax false s e).
Proof.
  unfold binary_round. destruct (shl_align s e _) as [mz ez].
  unfold binary_round_aux. destruct (shr_fexp prec emax (Zpos mz) ez loc_Exact) as [r1 e1].
  destruct (shr_fexp prec emax _ e1 loc_Exact) as [r2 e2].
  destruct (shr_m r2); try reflexivity.
  destruct (e2 <=? Z.sub emax prec); reflexivity.
Qed.

Lemma leb_opp (a b : spec_float) : SFleb (SFopp a) (SFopp b) = SFleb b a.
Proof.
  unfold SFleb.
  destruct a as [sa|sa| |sa ma ea], b as [sb|sb| |sb mb eb];
    try destruct sa; try destruct sb; try reflexivity; simpl;
    rewrite (Z.compare_antisym ea eb); destruct (ea ?= eb); try reflexivity; simpl;
    change (Pos.compare_cont Eq ma mb) with (Pos.compare ma mb);
    change (Pos.compare_cont Eq mb ma) with (Pos.compare mb ma);
    rewrite (Pos.compare_antisym ma mb); destruct (Pos.compare ma mb); reflexivity.
Qed.

(** The mirror images of [binary_round_ge] and [binary_round_le]. *)
Lemma binary_round_ge_neg (mt s : positive) (et ez : Z) :
  bounded prec emax mt et = true ->
  ez <= et ->
  Zpos mt * 2 ^ (et - ez) <= Zpos s ->
  SFleb (binary_round prec emax true s ez) (S754_finite true mt et) = true.
Proof.
  intros Hbd Hez Hle. rewrite binary_round_opp.
  change (S754_finite true mt et) with (SFopp (S754_finite false mt et)).
  rewrite leb_opp. by apply binary_round_ge.
Qed.

Lemma binary_round_le_pos (mt s : positive) (et ez : Z) :
  bounded prec emax mt et = true ->
  ez <= et ->
  Zpos s < Zpos mt * 2 ^ (et - ez) ->
  SFleb (binary_round prec emax false s ez) (S754_finite false mt et) = true.
Proof.
  intros Hbd Hez Hlt. rewrite <- leb_opp, <- binary_round_opp.
  by apply binary_round_le.
Qed.

Lemma leb_refl_finite (s : bool) (m : positive) (e : Z) :
  SFleb (S754_finite s m e) (S754_finite s m e) = true.
Proof.
  unfold SFleb, SFcompare. rewrite Z.compare_refl.
  change (Pos.compare_cont Eq m m) with (Pos.compare m m).
  rewrite Pos.compare_refl. destruct s; reflexivity.
Qed.

Lemma shl_align_le (m : positive) (e ez : Z) :
  ez <= e -> Zpos (fst (shl_align m e ez)) = Zpos m * 2 ^ (e - ez).
Proof.
  intros H. destruct (shl_align_spec m e ez) as [_ Hm].
  rewrite Hm. replace (Z.min e ez) with ez by lia. reflexivity.
Qed.

(** Adding a value that is not negative to a well-formed double that is not
    a NaN does not decrease it, unless the sum is [-inf + inf]. *)
Theorem fadd_nonneg_ge (t x : spec_float) :
  valid_binary prec emax t = true ->
  t <> S754_nan ->
  SFleb (S754_zero false) x = true ->
  ~ (t = S754_infinity true /\ x = S754_infinity false) ->
  SFleb t (SFadd prec emax t x) = true.
Proof.
  intros Hv Hnan Hx Hinf.
  destruct x as [sx|sx| |sx mx ex]; try discriminate.
  - (* x = 0 *)
    destruct t as [st|st| |st mt et]; try congruence.
    + destruct st, sx; reflexivity.
    + destruct st; reflexivity.
    + simpl. apply leb_refl_finite.
  - (* x = +inf *)
    destruct sx; [discriminate|].
    destruct t as [st|st| |st mt et]; try congruence.
    + reflexivity.
    + destruct st; [|reflexivity]. exfalso. apply Hinf. split; reflexivity.
    + reflexivity.
  - (* x finite and positive *)
    destruct sx; [discriminate|].
    destruct t as [st|st| |st mt et]; try congruence.
    + reflexivity.
    + destruct st; reflexivity.
    + simpl in Hv. unfold SFadd.
      set (ez := Z.min et ex).
      rewrite (shl_align_le mt et ez) by (unfold ez; lia).
      rewrite (shl_align_le mx ex ez) by (unfold ez; lia).
      assert (Hpt : 0 < 2 ^ (et - ez)) by (apply Z.pow_pos_nonneg; unfold ez; lia).
      assert (Hpx : 0 < 2 ^ (ex - ez)) by (apply Z.pow_pos_nonneg; unfold ez; lia).
      destruct st; unfold cond_Zopp.
      * (* t negative *)
        destruct (- (Zpos mt * 2 ^ (et - ez)) + Zpos mx * 2 ^ (ex - ez)) as [|s|s] eqn:Hs;
          unfold binary_normalize.
        -- reflexivity.
        -- destruct (binary_round_sign false s ez) as [->|[->|(m & e & ->)]]; reflexivity.
        -- apply binary_round_le; [exact Hv | unfold ez; lia | nia].
      * (* t positive *)
        destruct (Zpos mt * 2 ^ (et - ez) + Zpos mx * 2 ^ (ex - ez)) as [|s|s] eqn:Hs;
          unfold binary_normalize; try nia.
        apply binary_round_ge; [exact Hv | unfold ez; lia | nia].
Qed.

(** Adding a value that is not positive to a well-formed double that is not
    a NaN does not increase it, unless the sum is [inf + -inf]. *)
Theorem fadd_nonpos_le (t x : spec_float) :
  valid_binary prec emax t = true ->
  t <> S754_nan ->
  SFleb x (S754_zero false) = true ->
  ~ (t = S754_infinity false /\ x = S754_infinity true) ->
  SFleb (SFadd prec emax t x) t = true.
Proof.
  intros Hv Hnan Hx Hinf.
  destruct x as [sx|sx| |sx mx ex]; try discriminate.
  - (* x = 0 *)
    destruct t as [st|st| |st mt et]; try congruence.
    + destruct st, sx; reflexivity.
    + destruct st; reflexivity.
    + simpl. apply leb_refl_finite.
  - (* x = -inf *)
    destruct sx; [|discriminate].
    destruct t as [st|st| |st mt et]; try congruence.
    + reflexivity.
    + destruct st; [reflexivity|]. exfalso. apply Hinf. split; reflexivity.
    + reflexivity.
  - (* x finite and negative *)
    destruct sx; [|discriminate].
    destruct t as [st|st| |st mt et]; try congruence.
    + reflexivity.
    + destruct st; reflexivity.
    + simpl in Hv. unfold SFadd.
      set (ez := Z.min et ex).
      rewrite (shl_align_le mt et ez) by (unfold ez; lia).
      rewrite (shl_align_le mx ex ez) by (unfold ez; lia).
      assert (Hpt : 0 < 2 ^ (et - ez)) by (apply Z.pow_pos_nonneg; unfold ez; lia).
      assert (Hpx : 0 < 2 ^ (ex - ez)) by (apply Z.pow_pos_nonneg; unfold ez; lia).
      destruct st; unfold cond_Zopp.
      * (* t negative *)
        destruct (- (Zpos mt * 2 ^ (et - ez)) + - (Zpos mx * 2 ^ (ex - ez))) as [|s|s] eqn:Hs;
          unfold binary_normalize; try nia.
        apply binary_round_ge_neg; [exact Hv | unfold ez; lia | nia].
      * (* t positive *)
        destruct (Zpos mt * 2 ^ (et - ez) + - (Zpos mx * 2 ^ (ex - ez))) as [|s|s] eqn:Hs;
          unfold binary_normalize.
        -- reflexivity.
        -- apply binary_round_le_pos; [exact Hv | unfold ez; lia | nia].
        -- destruct (binary_round_sign true s ez) as [->|[->|(m & e & ->)]]; reflexivity.
Qed.

(** *** Results of the operations are well-formed *)

Lemma binary_round_aux_valid (sx : bool) (mx ex : Z) :
  0 < mx ->
  ex <= fexp prec emax (Zdigits2 mx + ex) ->
  valid_binary prec emax (binary_round_aux prec emax sx mx ex loc_Exact) = true.
Proof.
  intros Hm Hex.
  destruct (binary_round_aux_spec sx mx ex Hm) as (m3 & Hb & _ & Hr).
  cbv zeta in Hr. rewrite Hr. clear Hr.
  set (E := fexp prec emax (Zdigits2 mx + ex)) in *.
  assert (HE : E = Z.max (Zdigits2 mx + ex - 53) (-1074)) by (unfold E; apply fexp_eq).
  replace (Z.max (E - ex) 0) with (E - ex) in * by lia.
  replace (ex + (E - ex)) with E by lia.
  replace (Z.max (fexp prec emax (Zdigits2 m3 + E) - E) 0)
    with (Z.max (Zdigits2 m3 - 53) 0) by (rewrite fexp_eq; lia).
  assert (Hp : 0 < 2 ^ (E - ex)) by (apply Z.pow_pos_nonneg; lia).
  pose proof (digits_bounds mx Hm) as [Hl Hu].
  assert (Hm2 : 0 <= mx / 2 ^ (E - ex)) by (apply Z.div_pos; lia).
  assert (Hm2u : mx / 2 ^ (E - ex) < 2 ^ 53).
  { apply Z.div_lt_upper_bound; [lia|]. rewrite <- Z.pow_add_r by lia.
    assert (2 ^ Zdigits2 mx <= 2 ^ (E - ex + 53)) by (apply Z.pow_le_mono_r; lia).
    lia. }
  assert (Hnorm : -1074 < E -> 2 ^ 52 <= mx / 2 ^ (E - ex)).
  { intros HEn. apply Z.div_le_lower_bound; [lia|].
    rewrite <- Z.pow_add_r by lia.
    replace (E - ex + 52) with (Zdigits2 mx - 1) by lia. exact Hl. }
  set (n2 := Z.max (Zdigits2 m3 - 53) 0).
  assert (Hp2 : 0 < 2 ^ n2) by (apply Z.pow_pos_nonneg; unfold n2; lia).
  destruct (m3 / 2 ^ n2) as [|m4|m4] eqn:Hq; [reflexivity| |reflexivity].
  destruct (E + n2 <=? emax - prec) eqn:Hfin; [|reflexivity].
  simpl. unfold bounded, canonical_mantissa. rewrite Hfin, andb_true_r.
  apply Z.eqb_eq. rewrite fexp_eq.
  change (Zpos (digits2_pos m4)) with (Zdigits2 (Zpos m4)). rewrite <- Hq.
  assert (Hm3 : 0 < m3).
  { destruct (Z_lt_le_dec 0 m3) as [|Hn]; [assumption|].
    assert (m3 = 0) by lia. subst m3. rewrite Z.div_0_l in Hq by lia. discriminate. }
  assert (Hd3 : Zdigits2 m3 <= 54).
  { apply digits_lt_pow; [lia|]. change (2 ^ 54) with (2 * 2 ^ 53). lia. }
  pose proof (digits_pos m3 Hm3) as Hd3p.
  destruct (Z_le_gt_dec (Zdigits2 m3) 53) as [Hs|Hs].
  - assert (Hn2 : n2 = 0) by (unfold n2; lia).
    rewrite Hn2. simpl (2 ^ 0). rewrite Z.div_1_r.
    destruct (Z_le_gt_dec (Zdigits2 m3) 52) as [Hs'|Hs']; [|lia].
    assert (E = -1074).
    { destruct (Z.eq_dec E (-1074)) as [|Hne]; [assumption|]. exfalso.
      assert (2 ^ 52 <= m3) by (specialize (Hnorm ltac:(lia)); lia).
      pose proof (digits_ge_pow m3 52 ltac:(lia) ltac:(lia)). lia. }
    lia.
  - assert (Hn2 : n2 = 1) by (unfold n2; lia).
    assert (Hm3e : m3 = 2 ^ 53).
    { pose proof (digits_bounds m3 Hm3) as [Hl3 _].
      replace (Zdigits2 m3 - 1) with 53 in Hl3 by lia. lia. }
    rewrite Hn2, Hm3e.
    change (2 ^ 53 / 2 ^ 1) with (2 ^ 52).
    change (Zdigits2 (2 ^ 52)) with 53. lia.
Qed.

Lemma binary_round_valid (sx : bool) (s : positive) (ez : Z) :
  valid_binary prec emax (binary_round prec emax sx s ez) = true.
Proof.
  unfold binary_round.
  destruct (shl_align_spec s ez (fexp prec emax (Zpos (digits2_pos s) + ez))) as [He1 HM].
  destruct (shl_align s ez (fexp prec emax (Zpos (digits2_pos s) + ez))) as [mz e1].
  cbn [fst snd] in He1, HM.
  apply binary_round_aux_valid; [lia|].
  assert (Hpow : 0 < 2 ^ (ez - e1)) by (apply Z.pow_pos_nonneg; lia).
  assert (Hdig : Zdigits2 (Zpos mz) + e1 = Zpos (digits2_pos s) + ez).
  { rewrite HM, <- He1. rewrite digits_shift by lia.
    change (Zdigits2 (Zpos s)) with (Zpos (digits2_pos s)). lia. }
  rewrite Hdig. lia.
Qed.

Lemma binary_normalize_valid (m e : Z) (sz : bool) :
  valid_binary prec emax (binary_normalize prec emax m e sz) = true.
Proof. destruct m; simpl; [reflexivity | apply binary_round_valid ..]. Qed.

Lemma fadd_valid (x y : spec_float) :
  valid_binary prec emax x = true -> valid_binary prec emax y = true ->
  valid_binary prec emax (SFadd prec emax x y) = true.
Proof.
  intros Hx Hy.
  destruct x as [sx|sx| |sx mx ex], y as [sy|sy| |sy my ey];
    try reflexivity; try assumption;
    try (destruct sx, sy; reflexivity).
  unfold SFadd. apply binary_normalize_valid.
Qed.

Lemma digits_mul (a b : Z) :
  0 < a -> 0 < b -> Zdigits2 a + Zdigits2 b - 1 <= Zdigits2 (a * b).
Proof.
  intros Ha Hb.
  pose proof (digits_bounds a Ha) as [Hal _].
  pose proof (digits_bounds b Hb) as [Hbl _].
  pose proof (digits_pos a Ha). pose proof (digits_pos b Hb).
  assert (Hp : 2 ^ (Zdigits2 a - 1 + (Zdigits2 b - 1)) <= a * b).
  { rewrite Z.pow_add_r by lia.
    assert (0 < 2 ^ (Zdigits2 a - 1)) by (apply Z.pow_pos_nonneg; lia).
    assert (0 < 2 ^ (Zdigits2 b - 1)) by (apply Z.pow_pos_nonneg; lia).
    nia. }
  pose proof (digits_ge_pow (a * b) (Zdigits2 a - 1 + (Zdigits2 b - 1)) ltac:(lia) Hp). lia.
Qed.

Lemma fmul_valid (x y : spec_float) :
  valid_binary prec emax x = true -> valid_binary prec emax y = true ->
  valid_binary prec emax (SFmul prec emax x y) = true.
Proof.
  intros Hx Hy.
  destruct x as [sx|sx| |sx mx ex], y as [sy|sy| |sy my ey]; try reflexivity.
  simpl in Hx, Hy.
  destruct (bounded_spec _ _ Hx) as [Hcx _].
  destruct (bounded_spec _ _ Hy) as [Hcy _].
  unfold SFmul. rewrite Pos2Z.inj_mul.
  apply binary_round_aux_valid; [lia|].
  rewrite fexp_eq.
  pose proof (digits_mul (Zpos mx) (Zpos my) ltac:(lia) ltac:(lia)) as Hd.
  change (Zdigits2 (Zpos mx)) with (Zpos (digits2_pos mx)) in Hd.
  change (Zdigits2 (Zpos my)) with (Zpos (digits2_pos my)) in Hd.
  pose proof (Pos2Z.is_pos (digits2_pos mx)). pose proof (Pos2Z.is_pos (digits2_pos my)).
  lia.
Qed.

Lemma fleb_nonneg_trans (t r : spec_float) :
  SFleb (S754_zero false) t = true -> SFleb t r = true ->
  SFleb (S754_zero false) r = true.
Proof.
  destruct t as [st|st| |st mt et], r as [sr|sr| |sr mr er];
    try destruct st; try destruct sr; simpl; try discriminate; try reflexivity.
Qed.

(** *** Exact results *)

Lemma shr_1_exact (k : Z) :
  0 <= k ->
  shr_1 {| shr_m := 2 * k; shr_r := false; shr_s := false |}
  = {| shr_m := k; shr_r := false; shr_s := false |}.
Proof. destruct k as [|q|q]; [reflexivity | reflexivity | lia]. Qed.

Lemma iter_shr_1_exact (p : positive) (k : Z) :
  0 <= k ->
  SpecFloat.iter_pos shr_1 p {| shr_m := k * 2 ^ Zpos p; shr_r := false; shr_s := false |}
  = {| shr_m := k; shr_r := false; shr_s := false |}.
Proof.
  revert k. induction p as [p IH|p IH|]; intros k Hk; cbn [SpecFloat.iter_pos].
  - assert (Hpos : 0 < 2 ^ Zpos p) by (apply Z.pow_pos_nonneg; lia).
    replace (k * 2 ^ Zpos p~1) with (2 * ((k * 2 ^ Zpos p) * 2 ^ Zpos p)).
    2:{ replace (Zpos p~1) with (1 + Zpos p + Zpos p) by lia.
        rewrite !Z.pow_add_r by lia. change (2 ^ 1) with 2. lia. }
    rewrite shr_1_exact by nia. rewrite IH by nia. apply IH. exact Hk.
  - assert (Hpos : 0 < 2 ^ Zpos p) by (apply Z.pow_pos_nonneg; lia).
    replace (k * 2 ^ Zpos p~0) with ((k * 2 ^ Zpos p) * 2 ^ Zpos p).
    2:{ replace (Zpos p~0) with (Zpos p + Zpos p) by lia.
        rewrite !Z.pow_add_r by lia. lia. }
    rewrite IH by nia. apply IH. exact Hk.
  - change (2 ^ 1) with 2. rewrite Z.mul_comm. apply shr_1_exact. exact Hk.
Qed.

(** Rounding a value that is a double gives that double: [mx * 2^ex] is
    the value of the well-formed [(m', e')], written at a smaller
    exponent. *)
Lemma binary_round_aux_exact (sx : bool) (m' : positive) (e' ex : Z) :
  bounded prec emax m' e' = true ->
  ex <= e' ->
  binary_round_aux prec emax sx (Zpos m' * 2 ^ (e' - ex)) ex loc_Exact
  = S754_finite sx m' e'.
Proof.
  intros Hbd Hex.
  destruct (bounded_spec _ _ Hbd) as [Hcan Hmax].
  assert (Hpow : 0 < 2 ^ (e' - ex)) by (apply Z.pow_pos_nonneg; lia).
  assert (Hdig : Zdigits2 (Zpos m' * 2 ^ (e' - ex)) + ex = Zpos (digits2_pos m') + e').
  { rewrite digits_shift by lia.
    change (Zdigits2 (Zpos m')) with (Zpos (digits2_pos m')). lia. }
  assert (Hfexp : fexp prec emax (Zpos (digits2_pos m') + e') = e')
    by (rewrite fexp_eq; lia).
  unfold binary_round_aux, shr_fexp. rewrite Hdig, Hfexp.
  assert (Hshr : shr (shr_record_of_loc (Zpos m' * 2 ^ (e' - ex)) loc_Exact) ex (e' - ex)
                 = ({| shr_m := Zpos m'; shr_r := false; shr_s := false |}, e')).
  { unfold shr, shr_record_of_loc.
    destruct (e' - ex) as [|p|p] eqn:Hd; [| |lia].
    - rewrite Z.mul_1_r. f_equal. lia.
    - rewrite iter_shr_1_exact by lia. f_equal. lia. }
  rewrite Hshr. cbn [shr_m loc_of_shr_record round_nearest_even].
  change (Zdigits2 (Zpos m')) with (Zpos (digits2_pos m')).
  rewrite Hfexp, Z.sub_diag. cbn [shr shr_record_of_loc shr_m].
  assert (Hfin : (e' <=? emax - prec) = true) by (apply Z.leb_le; unfold emax, prec; lia).
  rewrite Hfin. reflexivity.
Qed.

Lemma binary_round_aux_exact_same (sx : bool) (m' : positive) (e' : Z) :
  bounded prec emax m' e' = true ->
  binary_round_aux prec emax sx (Zpos m') e' loc_Exact = S754_finite sx m' e'.
Proof.
  intros Hbd. rewrite <- (binary_round_aux_exact sx m' e' e' Hbd ltac:(lia)).
  rewrite Z.sub_diag. change (2 ^ 0) with 1. rewrite Z.mul_1_r. reflexivity.
Qed.

Lemma binary_round_exact_up (sx : bool) (m' : positive) (e' ez : Z) (s : positive) :
  bounded prec emax m' e' = true ->
  ez <= e' -> Zpos s = Zpos m' * 2 ^ (e' - ez) ->
  binary_round prec emax sx s ez = S754_finite sx m' e'.
Proof.
  intros Hbd Hez Hs.
  destruct (bounded_spec _ _ Hbd) as [Hcan Hmax].
  assert (Hpow : 0 < 2 ^ (e' - ez)) by (apply Z.pow_pos_nonneg; lia).
  assert (Hdig : Zpos (digits2_pos s) + ez = Zpos (digits2_pos m') + e').
  { change (Zpos (digits2_pos s)) with (Zdigits2 (Zpos s)). rewrite Hs.
    rewrite digits_shift by lia.
    change (Zdigits2 (Zpos m')) with (Zpos (digits2_pos m')). lia. }
  assert (Hfexp : fexp prec emax (Zpos (digits2_pos m') + e') = e')
    by (rewrite fexp_eq; lia).
  unfold binary_round. rewrite Hdig, Hfexp.
  unfold shl_align. destruct (e' - ez) as [|p|p] eqn:Hd; [| |lia].
  - rewrite Hs. replace ez with e' by lia.
    rewrite <- (binary_round_aux_exact sx m' e' e' Hbd ltac:(lia)).
    rewrite Z.sub_diag. reflexivity.
  - rewrite Hs. rewrite <- (binary_round_aux_exact sx m' e' ez Hbd Hez).
    rewrite Hd. reflexivity.
Qed.

Lemma binary_round_exact_down (sx : bool) (m' : positive) (e' ez : Z) (s : positive) :
  bounded prec emax m' e' = true ->
  e' <= ez -> Zpos m' = Zpos s * 2 ^ (ez - e') ->
  binary_round prec emax sx s ez = S754_finite sx m' e'.
Proof.
  intros Hbd Hez Hs.
  destruct (Z.eq_dec e' ez) as [->|Hne].
  { apply binary_round_exact_up; [assumption | lia |].
    rewrite Z.sub_diag in *. lia. }
  destruct (bounded_spec _ _ Hbd) as [Hcan Hmax].
  assert (Hpow : 0 < 2 ^ (ez - e')) by (apply Z.pow_pos_nonneg; lia).
  assert (Hdig : Zpos (digits2_pos s) + ez = Zpos (digits2_pos m') + e').
  { change (Zpos (digits2_pos m')) with (Zdigits2 (Zpos m')). rewrite Hs.
    rewrite digits_shift by lia.
    change (Zdigits2 (Zpos s)) with (Zpos (digits2_pos s)). lia. }
  assert (Hfexp : fexp prec emax (Zpos (digits2_pos m') + e') = e')
    by (rewrite fexp_eq; lia).
  unfold binary_round. rewrite Hdig, Hfexp.
  unfold shl_align. destruct (e' - ez) as [|p|p] eqn:Hd; [lia|lia|].
  assert (Hm : Pos.iter xO s p = m').
  { apply Pos2Z.inj. rewrite iter_xO_pow, Hs. f_equal. f_equal. lia. }
  rewrite Hm. apply binary_round_aux_exact_same. exact Hbd.
Qed.

(** The double of a positive integer below [2^53]: its well-formed
    mantissa and exponent. *)
Lemma int_canonical (n : Z) :
  0 < n < 2 ^ 53 ->
  exists m,
    Zpos m = n * 2 ^ (53 - Zdigits2 n)
    /\ bounded prec emax m (Zdigits2 n - 53) = true.
Proof.
  intros Hn. pose proof (digits_pos n ltac:(lia)) as Hd.
  pose proof (digits_lt_pow n 53 ltac:(lia) ltac:(lia)) as Hd53.
  assert (Hpow : 0 < 2 ^ (53 - Zdigits2 n)) by (apply Z.pow_pos_nonneg; lia).
  destruct (n * 2 ^ (53 - Zdigits2 n)) as [|m|m] eqn:Hm; try nia.
  exists m. split; [reflexivity|].
  unfold bounded, canonical_mantissa.
  change (Zpos (digits2_pos m)) with (Zdigits2 (Zpos m)). rewrite <- Hm.
  rewrite digits_shift by lia. rewrite fexp_eq.
  apply andb_true_intro. split; [apply Z.eqb_eq; lia | apply Z.leb_le; unfold emax, prec; lia].
Qed.

Lemma binary_round_aux_int (sx : bool) (mx ex n : Z) :
  0 < n < 2 ^ 53 ->
  ex <= Zdigits2 n - 53 ->
  mx = n * 2 ^ (- ex) ->
  exists m,
    Zpos m = n * 2 ^ (53 - Zdigits2 n)
    /\ binary_round_aux prec emax sx mx ex loc_Exact
       = S754_finite sx m (Zdigits2 n - 53).
Proof.
  intros Hn Hex Hmx. destruct (int_canonical n Hn) as (m & Hm & Hbd).
  exists m. split; [exact Hm|].
  pose proof (digits_lt_pow n 53 ltac:(lia) ltac:(lia)) as Hd53.
  rewrite <- (binary_round_aux_exact sx m (Zdigits2 n - 53) ex Hbd Hex).
  f_equal. rewrite Hmx, Hm, <- Z.mul_assoc, <- Z.pow_add_r by lia.
  f_equal. f_equal. lia.
Qed.

Lemma binary_round_int (sx : bool) (s : positive) (ez n : Z) :
  0 < n < 2 ^ 53 ->
  ez <= 0 ->
  Zpos s = n * 2 ^ (- ez) ->
  exists m,
    Zpos m = n * 2 ^ (53 - Zdigits2 n)
    /\ binary_round prec emax sx s ez = S754_finite sx m (Zdigits2 n - 53).
Proof.
  intros Hn Hez Hs. destruct (int_canonical n Hn) as (m & Hm & Hbd).
  exists m. split; [exact Hm|].
  pose proof (digits_lt_pow n 53 ltac:(lia) ltac:(lia)) as Hd53.
  destruct (Z_le_gt_dec ez (Zdigits2 n - 53)) as [Hle|Hgt].
  - apply binary_round_exact_up; [exact Hbd | exact Hle |].
    rewrite Hs, Hm, <- Z.mul_assoc, <- Z.pow_add_r by lia. f_equal. f_equal. lia.
  - apply binary_round_exact_down; [exact Hbd | lia |].
    rewrite Hs, Hm, <- Z.mul_assoc, <- Z.pow_add_r by lia. f_equal. f_equal. lia.
Qed.

Lemma int_double (n : Z) :
  0 < n < 2 ^ 53 ->
  exists m,
    Zpos m = n * 2 ^ (53 - Zdigits2 n)
    /\ binary_normalize prec emax n 0 false = S754_finite false m (Zdigits2 n - 53).
Proof.
  intros Hn. destruct n as [|s|s]; try lia. unfold binary_normalize.
  apply binary_round_int; [exact Hn | lia |]. simpl. lia.
Qed.

(** Sums of integers are exact below [2^53]. *)
Lemma fadd_int (a b : Z) :
  0 <= a -> 0 <= b -> a + b < 2 ^ 53 ->
  SFadd prec emax (binary_normalize prec emax a 0 false)
    (binary_normalize prec emax b 0 false)
  = binary_normalize prec emax (a + b) 0 false.
Proof.
  intros Ha Hb Hab.
  destruct (Z.eq_dec a 0) as [->|Ha0].
  { simpl (binary_normalize prec emax 0 0 false). rewrite Z.add_0_l.
    destruct (Z.eq_dec b 0) as [->|Hb0]; [reflexivity|].
    destruct (int_double b ltac:(lia)) as (mb & _ & ->). reflexivity. }
  destruct (Z.eq_dec b 0) as [->|Hb0].
  { simpl (binary_normalize prec emax 0 0 false). rewrite Z.add_0_r.
    destruct (int_double a ltac:(lia)) as (ma & _ & ->). reflexivity. }
  destruct (int_double a ltac:(lia)) as (ma & Hma & ->).
  destruct (int_double b ltac:(lia)) as (mb & Hmb & ->).
  destruct (int_double (a + b) ltac:(lia)) as (mc & Hmc & ->).
  pose proof (digits_pos a ltac:(lia)) as Hda.
  pose proof (digits_pos b ltac:(lia)) as Hdb.
  pose proof (digits_lt_pow a 53 ltac:(lia) ltac:(lia)) as Hda53.
  pose proof (digits_lt_pow b 53 ltac:(lia) ltac:(lia)) as Hdb53.
  unfold SFadd. set (ez := Z.min (Zdigits2 a - 53) (Zdigits2 b - 53)).
  rewrite (shl_align_le ma _ ez) by (unfold ez; lia).
  rewrite (shl_align_le mb _ ez) by (unfold ez; lia).
  unfold cond_Zopp.
  assert (Hsum : Zpos ma * 2 ^ (Zdigits2 a - 53 - ez) + Zpos mb * 2 ^ (Zdigits2 b - 53 - ez)
                 = (a + b) * 2 ^ (- ez)).
  { rewrite Hma, Hmb, <- !Z.mul_assoc, <- !Z.pow_add_r by (unfold ez; lia).
    replace (53 - Zdigits2 a + (Zdigits2 a - 53 - ez)) with (- ez) by lia.
    replace (53 - Zdigits2 b + (Zdigits2 b - 53 - ez)) with (- ez) by lia. lia. }
  rewrite Hsum.
  assert (Hpow : 0 < 2 ^ (- ez)) by (apply Z.pow_pos_nonneg; unfold ez; lia).
  destruct ((a + b) * 2 ^ (- ez)) as [|s|s] eqn:Hs; try nia.
  unfold binary_normalize.
  destruct (binary_round_int false s ez (a + b) ltac:(lia) ltac:(unfold ez; lia)
              ltac:(lia)) as (mc' & Hmc' & ->).
  f_equal. apply Pos2Z.inj. lia.
Qed.

(** Products of integers are exact below [2^53]. *)
Lemma fmul_int (a b : Z) :
  0 <= a < 2 ^ 53 -> 0 <= b < 2 ^ 53 -> a * b < 2 ^ 53 ->
  SFmul prec emax (binary_normalize prec emax a 0 false)
    (binary_normalize prec emax b 0 false)
  = binary_normalize prec emax (a * b) 0 false.
Proof.
  intros Ha Hb Hab.
  destruct (Z.eq_dec a 0) as [->|Ha0].
  { simpl (binary_normalize prec emax 0 0 false). rewrite Z.mul_0_l.
    destruct (Z.eq_dec b 0) as [->|Hb0]; [reflexivity|].
    destruct (int_double b ltac:(lia)) as (mb & _ & ->). reflexivity. }
  destruct (Z.eq_dec b 0) as [->|Hb0].
  { simpl (binary_normalize prec emax 0 0 false). rewrite Z.mul_0_r.
    destruct (int_double a ltac:(lia)) as (ma & _ & ->). reflexivity. }
  assert (Hab0 : 0 < a * b) by nia.
  destruct (int_double a ltac:(lia)) as (ma & Hma & ->).
  destruct (int_double b ltac:(lia)) as (mb & Hmb & ->).
  destruct (int_double (a * b) ltac:(lia)) as (mc & Hmc & ->).
  pose proof (digits_pos a ltac:(lia)) as Hda.
  pose proof (digits_pos b ltac:(lia)) as Hdb.
  pose proof (digits_lt_pow a 53 ltac:(lia) ltac:(lia)) as Hda53.
  pose proof (digits_lt_pow b 53 ltac:(lia) ltac:(lia)) as Hdb53.
  pose proof (digits_mul a b ltac:(lia) ltac:(lia)) as Hdab.
  unfold SFmul. simpl xorb. rewrite Pos2Z.inj_mul.
  destruct (binary_round_aux_int false (Zpos ma * Zpos mb)
              (Zdigits2 a - 53 + (Zdigits2 b - 53)) (a * b) ltac:(lia) ltac:(lia))
    as (mc' & Hmc' & ->).
  { rewrite Hma, Hmb.
    replace (- (Zdigits2 a - 53 + (Zdigits2 b - 53)))
      with ((53 - Zdigits2 a) + (53 - Zdigits2 b)) by lia.
    rewrite Z.pow_add_r by lia. lia. }
  f_equal. apply Pos2Z.inj. lia.
Qed.

(** *** Integers beyond the doubles *)

(** An integer of magnitude [2^1024] or more rounds to an infinity. *)
Lemma binary_round_huge (s : positive) :
  2 ^ 1024 <= Zpos s ->
  binary_round prec emax false s 0 = S754_infinity false.
Proof.
  intros Hs.
  assert (Hge : SFleb (S754_finite false 4503599627370496 0)
                  (binary_round prec emax false s 0) = true).
  { apply binary_round_ge; [reflexivity | lia |].
    assert (Zpos 4503599627370496 * 2 ^ (0 - 0) < 2 ^ 1024) by reflexivity. lia. }
  destruct (binary_round_spec false s 0)
    as (M & e1 & m3 & HM0 & He1z & He1E & HM & Hb & _ & Hr).
  rewrite Hr in *. clear Hr.
  set (E := fexp prec emax (Zpos (digits2_pos s) + 0)) in *.
  assert (Hd : 1025 <= Zpos (digits2_pos s)).
  { change (Zpos (digits2_pos s)) with (Zdigits2 (Zpos s)).
    pose proof (digits_ge_pow (Zpos s) 1024 ltac:(lia) Hs). lia. }
  assert (HE : 972 <= E) by (unfold E; rewrite fexp_eq; lia).
  destruct (m3 / 2 ^ Z.max (Zdigits2 m3 - prec) 0) as [|m4|m4];
    try discriminate.
  assert (Hfin : (E + Z.max (Zdigits2 m3 - prec) 0 <=? emax - prec) = false).
  { apply Z.leb_gt. unfold emax, prec. lia. }
  rewrite Hfin. reflexivity.
Qed.

Lemma float_of_int_huge (n : Z) :
  2 ^ 1024 <= Z.abs n -> float_of_int n = Raised OverflowError.
Proof.
  intros Hn. unfold float_of_int, dyadic, binary_normalize.
  destruct n as [|s|s]; simpl in Hn.
  - exfalso. assert (0 < 2 ^ 1024) by reflexivity. lia.
  - rewrite binary_round_huge by exact Hn. reflexivity.
  - rewrite binary_round_opp, binary_round_huge by exact Hn. reflexivity.
Qed.

(** ** The sales aggregator, row by row *)

(** A row that is not valid and matched leaves the total as it is and prints
    one line. *)
Lemma sale_body_skip prices sale total (w : world) :
  matched prices sale = false ->
  exists line,
    compute_total_sales_body prices sale total w = (Returned total, emit w [line]).
Proof.
  unfold matched, valid_sale, product_of, compute_total_sales_body.
  destruct (isinstance_dict sale); simpl; [|eauto].
  destruct (py_get sale "Product") as [| | | |product| |]; simpl; eauto.
  destruct (isinstance_int (py_get sale "Quantity")); simpl; [|eauto].
  destruct (prices !! product) as [price|] eqn:Hp; simpl; [discriminate | eauto].
Qed.

(** A valid, matched row adds its amount to the total and prints nothing;
    the row raises when its amount does. *)
Lemma sale_body_matched prices sale total (w : world) :
  matched prices sale = true ->
  compute_total_sales_body prices sale total w =
  (match sale_amount prices sale with
   | Returned amount => Returned (fadd total amount)
   | Raised e => Raised e
   end, w).
Proof.
  unfold sale_amount, matched, valid_sale, product_of, compute_total_sales_body.
  destruct (isinstance_dict sale); simpl; [|discriminate].
  destruct (py_get sale "Product") as [| | | |product| |]; simpl; try discriminate.
  destruct (isinstance_int (py_get sale "Quantity")); simpl; [|discriminate].
  destruct (prices !! product) as [price|] eqn:Hp; simpl.
  - intros _. unfold bind, lift, ret.
    destruct (float_mul price (py_get sale "Quantity")); reflexivity.
  - discriminate.
Qed.

Lemma sale_body_contribution prices sale total (w : world) amount :
  contribution prices sale = Some amount ->
  compute_total_sales_body prices sale total w = (Returned (fadd total amount), w).
Proof.
  unfold contribution. destruct (matched prices sale) eqn:Hm; [|discriminate].
  rewrite (sale_body_matched _ _ _ _ Hm).
  destruct (sale_amount prices sale); [|discriminate].
  intros [= ->]. reflexivity.
Qed.

(** The loop from any running total: the sum of the contributions is added
    to it, and only lines are printed. *)
Lemma sales_loop_sum prices sales total (w : world) :
  quantities_in_range prices sales ->
  exists lines,
    for_each (compute_total_sales_body prices) sales total w =
    (Returned (fold_left fadd (omap (contribution prices) sales) total), emit w lines).
Proof.
  intros Hr. revert total w.
  induction Hr as [|sale sales Hs _ IH]; intros total w; simpl.
  - exists []. by rewrite emit_nil.
  - unfold bind. destruct (matched prices sale) eqn:Hm.
    + destruct (Hs eq_refl) as [amount Ha].
      rewrite (sale_body_contribution _ _ _ _ _ Ha), Ha. simpl. apply IH.
    + destruct (sale_body_skip _ _ total w Hm) as [line ->].
      unfold contribution. rewrite Hm.
      destruct (IH total (emit w [line])) as [lines ->].
      exists (line :: lines). by rewrite emit_emit.
Qed.

(** The loop returns only when every valid, matched quantity converts. *)
Lemma sales_loop_returns prices sales total (w : world) result w' :
  for_each (compute_total_sales_body prices) sales total w = (Returned result, w') ->
  quantities_in_range prices sales.
Proof.
  revert total w. induction sales as [|sale sales IH]; intros total w; simpl.
  - intros _. constructor.
  - unfold bind. intros H. destruct (matched prices sale) eqn:Hm.
    + rewrite (sale_body_matched _ _ _ _ Hm) in H.
      destruct (sale_amount prices sale) as [amount|e] eqn:Ha; [|discriminate].
      constructor; [|exact (IH _ _ H)].
      intros _. unfold contribution. rewrite Hm, Ha. eauto.
    + destruct (sale_body_skip _ _ total w Hm) as [line Hl]. rewrite Hl in H.
      constructor; [|exact (IH _ _ H)]. rewrite Hm. discriminate.
Qed.

(** The sum over the valid, matched rows (a supporting lemma of the
    aggregation): when every valid, matched quantity converts to a float,
    [compute_total_sales] returns the sum of the contributions. *)
Lemma compute_total_sales_sum prices sales (w : world) :
  quantities_in_range prices sales ->
  fst (compute_total_sales sales prices w) = Returned (sum_of_contributions prices sales).
Proof.
  intros Hr. unfold compute_total_sales, sum_of_contributions.
  destruct (sales_loop_sum _ _ pos_zero w Hr) as [lines ->]. reflexivity.
Qed.

(** Whenever [compute_total_sales] returns, it returns that sum. *)
Lemma compute_total_sales_returned prices sales (w : world) total w' :
  compute_total_sales sales prices w = (Returned total, w') ->
  total = sum_of_contributions prices sales.
Proof.
  intros H. pose proof (sales_loop_returns _ _ _ _ _ _ H) as Hr.
  pose proof (compute_total_sales_sum prices sales w Hr) as Hs.
  rewrite H in Hs. simpl in Hs. congruence.
Qed.

(** Rows that are not valid and matched: the total stays at [0.0]. *)
Lemma compute_total_sales_no_match prices sales (w : world) :
  Forall (fun sale => matched prices sale = false) sales ->
  fst (compute_total_sales sales prices w) = Returned pos_zero.
Proof.
  intros Hn.
  assert (Hr : quantities_in_range prices sales).
  { eapply Forall_impl; [exact Hn|]. simpl. intros sale -> ?. discriminate. }
  rewrite (compute_total_sales_sum _ _ _ Hr). unfold sum_of_contributions.
  replace (omap (contribution prices) sales) with (@nil float); [reflexivity|].
  clear Hr. induction Hn as [|sale sales Hs _ IH]; simpl; [reflexivity|].
  unfold contribution at 1. rewrite Hs. exact IH.
Qed.

(** ** The catalogue indexer, entry by entry *)

Lemma entry_body_skip item prices (w : world) :
  skipped_entry item = true ->
  exists line,
    build_price_dictionary_body item prices w = (Returned prices, emit w [line]).
Proof.
  unfold skipped_entry, build_price_dictionary_body.
  destruct (isinstance_dict item); simpl; [|eauto].
  destruct (py_get item "title") as [| | | |title| |]; simpl; eauto.
  destruct (isinstance_int_float (py_get item "price")); simpl; [discriminate|eauto].
Qed.

Lemma entry_body_valid item prices (w : world) title p :
  valid_entry item = Some (title, p) ->
  build_price_dictionary_body item prices w = (Returned (<[title := p]> prices), w).
Proof.
  unfold valid_entry, skipped_entry, build_price_dictionary_body.
  destruct (isinstance_dict item); simpl; [|discriminate].
  destruct (py_get item "title") as [| | | |t| |]; simpl; try discriminate.
  destruct (isinstance_int_float (py_get item "price")); simpl; [|discriminate].
  unfold bind, lift, ret.
  destruct (py_float (py_get item "price")); [|discriminate].
  intros [= -> ->]. reflexivity.
Qed.

(** An entry that is neither skipped nor valid raises: its price passes
    the type test and does not convert. *)
Lemma entry_body_raises item :
  skipped_entry item = false -> valid_entry item = None ->
  exists e, forall prices (w : world),
      build_price_dictionary_body item prices w = (Raised e, w).
Proof.
  unfold valid_entry, skipped_entry, build_price_dictionary_body.
  destruct (isinstance_dict item); simpl; [|discriminate].
  destruct (py_get item "title") as [| | | |t| |]; simpl; try discriminate.
  destruct (isinstance_int_float (py_get item "price")); simpl; [|discriminate].
  unfold bind, lift, ret.
  destruct (py_float (py_get item "price")); [discriminate|eauto].
Qed.

Lemma entry_body_returned item prices (w : world) prices' w' :
  build_price_dictionary_body item prices w = (Returned prices', w') ->
  prices' = index_entry prices item.
Proof.
  intros H. unfold index_entry.
  destruct (valid_entry item) as [[title p]|] eqn:Hv.
  - rewrite (entry_body_valid _ _ _ _ _ Hv) in H. congruence.
  - destruct (skipped_entry item) eqn:Hs.
    + destruct (entry_body_skip _ prices w Hs) as [line Hl]. congruence.
    + destruct (entry_body_raises _ Hs Hv) as [e He]. rewrite He in H. discriminate.
Qed.

Lemma catalogue_loop_returned catalogue prices (w : world) prices' w' :
  for_each build_price_dictionary_body catalogue prices w = (Returned prices', w') ->
  prices' = fold_left index_entry catalogue prices.
Proof.
  revert prices w. induction catalogue as [|item catalogue IH]; intros prices w; simpl.
  - unfold ret. congruence.
  - unfold bind.
    destruct (build_price_dictionary_body item prices w) as [[m|e] w1] eqn:Hb;
      [|discriminate].
    apply entry_body_returned in Hb. subst m. apply IH.
Qed.

Lemma catalogue_loop_total catalogue prices (w : world) :
  Forall (fun item => skipped_entry item = true \/ is_Some (valid_entry item)) catalogue ->
  exists lines,
    for_each build_price_dictionary_body catalogue prices w =
    (Returned (fold_left index_entry catalogue prices), emit w lines).
Proof.
  intros Hc. revert prices w.
  induction Hc as [|item catalogue Hi _ IH]; intros prices w; simpl.
  - exists []. by rewrite emit_nil.
  - unfold bind, index_entry at 2. destruct Hi as [Hs|[[title p] Hv]].
    + destruct (entry_body_skip _ prices w Hs) as [line ->].
      assert (valid_entry item = None) as ->.
      { unfold valid_entry. by rewrite Hs. }
      destruct (IH prices (emit w [line])) as [lines ->].
      exists (line :: lines). by rewrite emit_emit.
    + rewrite (entry_body_valid _ _ _ _ _ Hv), Hv. apply IH.
Qed.

(** Entries that are not valid for [title] keep what the mapping says of it. *)
Lemma index_entries_frame catalogue prices title :
  Forall (fun item => forall p, valid_entry item <> Some (title, p)) catalogue ->
  fold_left index_entry catalogue prices !! title = prices !! title.
Proof.
  intros Hc. revert prices.
  induction Hc as [|item catalogue Hi _ IH]; intros prices; simpl; [reflexivity|].
  rewrite IH. unfold index_entry.
  destruct (valid_entry item) as [[t p]|]; [|reflexivity].
  apply lookup_insert_ne. intros ->. exact (Hi p eq_refl).
Qed.

(** Last wins: after a valid entry for [title], followed only by entries
    not valid for it, the mapping holds that entry's price. *)
Lemma index_entries_last before item after prices title p :
  valid_entry item = Some (title, p) ->
  Forall (fun item' => forall p', valid_entry item' <> Some (title, p')) after ->
  fold_left index_entry (before ++ item :: after) prices !! title = Some p.
Proof.
  intros Hv Ha. rewrite fold_left_app. simpl.
  rewrite (index_entries_frame _ _ _ Ha).
  unfold index_entry at 1. rewrite Hv. apply lookup_insert_eq.
Qed.

(** ** The catalogue indexer: claims *)

(** C2. Duplicate titles, last wins: in a catalogue with two (or more) valid
    entries for one title, the later followed by no further valid entry for
    it, every mapping [build_price_dictionary] returns maps the title to the
    price of that last entry; and the mapping is returned, with that price,
    whenever every entry of the catalogue is either skipped or valid. *)
Theorem build_price_dictionary_last_wins
    (before : list pyval) (e1 : pyval) (between : list pyval) (e2 : pyval)
    (after : list pyval) (title : string) (p1 p2 : float) (w : world) :
  valid_entry e1 = Some (title, p1) ->
  valid_entry e2 = Some (title, p2) ->
  Forall (fun item => forall p, valid_entry item <> Some (title, p)) after ->
  let catalogue := before ++ e1 :: between ++ e2 :: after in
  (forall prices w',
      build_price_dictionary catalogue w = (Returned prices, w') ->
      prices !! title = Some p2)
  /\ (Forall (fun item => skipped_entry item = true \/ is_Some (valid_entry item))
             catalogue ->
      exists prices w',
        build_price_dictionary catalogue w = (Returned prices, w')
        /\ prices !! title = Some p2).
Proof.
  intros _ H2 Ha catalogue.
  assert (Hl : forall prices,
             fold_left index_entry catalogue prices !! title = Some p2).
  { intros prices. unfold catalogue.
    replace (before ++ e1 :: between ++ e2 :: after)
      with ((before ++ e1 :: between) ++ e2 :: after)
      by (rewrite <- app_assoc; reflexivity).
    by apply index_entries_last. }
  split.
  - intros prices w' Hb. unfold build_price_dictionary in Hb.
    apply catalogue_loop_returned in Hb. subst prices. apply Hl.
  - intros Hc. destruct (catalogue_loop_total _ ∅ w Hc) as [lines Hb].
    exists (fold_left index_entry catalogue ∅), (emit w lines). split; [exact Hb | apply Hl].
Qed.

Lemma build_price_dictionary_last_wins_witness :
  exists prices w',
    build_price_dictionary
      ([] ++ product_entry "Widget" (PInt 3) :: [product_entry "Gadget" (PInt 10)]
          ++ product_entry "Widget" (PFloat (dyadic 5 (-1))) :: [PNone])
      quiet_world = (Returned prices, w')
    /\ prices !! "Widget" = Some (dyadic 5 (-1)).
Proof.
  refine (proj2 (build_price_dictionary_last_wins
                   [] (product_entry "Widget" (PInt 3))
                   [product_entry "Gadget" (PInt 10)]
                   (product_entry "Widget" (PFloat (dyadic 5 (-1))))
                   [PNone] "Widget" (dyadic 3 0) (dyadic 5 (-1)) quiet_world
                   _ _ _) _).
  - vm_compute. reflexivity.
  - vm_compute. reflexivity.
  - repeat constructor. intros p. vm_compute. discriminate.
  - repeat (apply List.Forall_cons;
            [first [left; vm_compute; reflexivity
                   | right; vm_compute; eexists; reflexivity]|]).
    apply List.Forall_nil.
Defined.

Lemma emit_line_neq (w : world) line : emit w [line] <> w.
Proof.
  intros H. apply (f_equal (fun x => length (stdout x))) in H.
  simpl in H. rewrite length_app in H. simpl in H. lia.
Qed.

(** C3, as stated, fails: the catalogue entry
    [{"title": "Widget", "price": true}] is not skipped; no diagnostic is
    printed and the mapping gets ["Widget"] at [1.0]. *)
Lemma boolean_price_is_accepted :
  let item := product_entry "Widget" (PBool true) in
  ~ (exists line,
        build_price_dictionary_body item ∅ quiet_world
        = (Returned ∅, emit quiet_world [line]))
  /\ exists prices,
      build_price_dictionary [item] quiet_world = (Returned prices, quiet_world)
      /\ prices !! "Widget" = Some one.
Proof.
  intros item.
  assert (Hv : valid_entry item = Some ("Widget"%string, one)) by (vm_compute; reflexivity).
  split.
  - intros [line H]. rewrite (entry_body_valid _ _ _ _ _ Hv) in H.
    apply (f_equal snd) in H. simpl in H. symmetry in H.
    exact (emit_line_neq _ _ H).
  - exists (<["Widget" := one]> ∅). split.
    + unfold build_price_dictionary. simpl. unfold bind.
      rewrite (entry_body_valid _ _ _ _ _ Hv). reflexivity.
    + apply lookup_insert_eq.
Qed.

(** C3, amended. A catalogue entry (a record with a text title) whose price
    is text or null (a missing price reads as null) is skipped: the
    invalid-price diagnostic naming the title is printed and the mapping is
    returned unchanged.  The prices accepted without a diagnostic are the
    integers, the floating-point numbers and the booleans. *)
Theorem non_numeric_price_skipped
    (item : pyval) (prices : gmap string float) (w : world) :
  (forall title,
      isinstance_dict item = true ->
      py_get item "title" = PStr title ->
      py_get item "price" = PNone \/ (exists s, py_get item "price" = PStr s) ->
      build_price_dictionary_body item prices w
      = (Returned prices,
         emit w ["ERROR: Product '" +:+ title +:+ "' has invalid price (skipped)"]))
  /\ (forall prices',
         build_price_dictionary_body item prices w = (Returned prices', w) ->
         (exists n, py_get item "price" = PInt n)
         \/ (exists x, py_get item "price" = PFloat x)
         \/ (exists b, py_get item "price" = PBool b)).
Proof.
  split.
  - intros title Hd Ht Hp. unfold build_price_dictionary_body.
    rewrite Hd, Ht. simpl.
    destruct Hp as [-> | [s ->]]; reflexivity.
  - intros prices' Hb.
    destruct (skipped_entry item) eqn:Hs.
    + destruct (entry_body_skip _ prices w Hs) as [line Hl].
      rewrite Hl in Hb. apply (f_equal snd) in Hb. simpl in Hb.
      destruct (emit_line_neq _ _ Hb).
    + unfold skipped_entry in Hs.
      apply orb_false_elim in Hs as [_ Hs]. apply negb_false_iff in Hs.
      destruct (py_get item "price"); try discriminate; eauto.
Qed.

Lemma non_numeric_price_skipped_witness :
  build_price_dictionary_body (product_entry "Widget" (PStr "2.5")) example_prices quiet_world
  = (Returned example_prices,
     emit quiet_world ["ERROR: Product 'Widget' has invalid price (skipped)"])
  /\ ((exists n, PBool true = PInt n)
      \/ (exists x, PBool true = PFloat x) \/ (exists b, PBool true = PBool b)).
Proof.
  split.
  - apply (proj1 (non_numeric_price_skipped
                    (product_entry "Widget" (PStr "2.5")) example_prices quiet_world)
                 "Widget").
    + reflexivity.
    + reflexivity.
    + right. exists "2.5"%string. reflexivity.
  - apply (proj2 (non_numeric_price_skipped
                    (product_entry "Gizmo" (PBool true)) example_prices quiet_world)
                 (<["Gizmo" := one]> example_prices)).
    apply entry_body_valid. vm_compute. reflexivity.
Defined.

(** The outcome of the indexer does not depend on the world it runs in. *)
Lemma catalogue_loop_outcome catalogue prices (w1 w2 : world) :
  fst (for_each build_price_dictionary_body catalogue prices w1)
  = fst (for_each build_price_dictionary_body catalogue prices w2).
Proof.
  revert prices w1 w2.
  induction catalogue as [|item catalogue IH]; intros prices w1 w2; simpl;
    [reflexivity|].
  unfold bind. destruct (valid_entry item) as [[title p]|] eqn:Hv.
  - rewrite !(entry_body_valid _ _ _ _ _ Hv). apply IH.
  - destruct (skipped_entry item) eqn:Hs.
    + destruct (entry_body_skip _ prices w1 Hs) as [l1 ->].
      destruct (entry_body_skip _ prices w2 Hs) as [l2 ->]. apply IH.
    + destruct (entry_body_raises _ Hs Hv) as [e He]. rewrite !He. reflexivity.
Qed.

(** C10. Skipping a catalogue entry leaves the mapping as it is.  An entry
    with a text title and a price that fails the numeric test (missing,
    null, text, a list or a record) is skipped with the invalid-price
    diagnostic and the mapping is returned as it was given; taking the entry
    out of a catalogue does not change what [build_price_dictionary]
    builds; and when the entry comes after a valid entry for the same title
    (no other valid entry for that title following that one), the mapping
    built keeps the price of the earlier entry. *)
Theorem skipped_entry_keeps_mapping (e2 : pyval) (title : string) (w : world) :
  isinstance_dict e2 = true ->
  py_get e2 "title" = PStr title ->
  isinstance_int_float (py_get e2 "price") = false ->
  (forall prices w0,
      build_price_dictionary_body e2 prices w0
      = (Returned prices,
         emit w0 ["ERROR: Product '" +:+ title +:+ "' has invalid price (skipped)"]))
  /\ (forall before after,
         fst (build_price_dictionary (before ++ e2 :: after) w)
         = fst (build_price_dictionary (before ++ after) w))
  /\ (forall before e1 between after p prices w',
         valid_entry e1 = Some (title, p) ->
         Forall (fun item => forall p', valid_entry item <> Some (title, p')) between ->
         Forall (fun item => forall p', valid_entry item <> Some (title, p')) after ->
         build_price_dictionary (before ++ e1 :: between ++ e2 :: after) w
         = (Returned prices, w') ->
         prices !! title = Some p).
Proof.
  intros Hd Ht Hp.
  assert (Hbody : forall prices w0,
             build_price_dictionary_body e2 prices w0
             = (Returned prices,
                emit w0 ["ERROR: Product '" +:+ title +:+ "' has invalid price (skipped)"])).
  { intros prices w0. unfold build_price_dictionary_body. rewrite Hd, Ht, Hp. reflexivity. }
  assert (Hv : forall p', valid_entry e2 <> Some (title, p')).
  { intros p'. unfold valid_entry, skipped_entry. rewrite Hd, Ht, Hp. discriminate. }
  split; [exact Hbody|]. split.
  - intros before after. unfold build_price_dictionary. rewrite !for_each_app.
    destruct (for_each build_price_dictionary_body before ∅ w) as [[m|e] w1];
      [|reflexivity].
    simpl. unfold bind. rewrite Hbody. apply catalogue_loop_outcome.
  - intros before e1 between after p prices w' H1 Hb Ha Hr.
    unfold build_price_dictionary in Hr. apply catalogue_loop_returned in Hr.
    subst prices. apply index_entries_last; [exact H1|].
    apply Forall_app. split; [exact Hb|]. constructor; assumption.
Qed.

Lemma skipped_entry_keeps_mapping_witness :
  build_price_dictionary_body (product_entry "Widget" (PStr "free"))
    example_prices quiet_world
  = (Returned example_prices,
     emit quiet_world ["ERROR: Product 'Widget' has invalid price (skipped)"])
  /\ fst (build_price_dictionary
            (example_catalogue ++ product_entry "Widget" (PStr "free") :: [PNone])
            quiet_world)
     = fst (build_price_dictionary (example_catalogue ++ [PNone]) quiet_world).
Proof.
  pose proof (skipped_entry_keeps_mapping
                (product_entry "Widget" (PStr "free")) "Widget"
                quiet_world eq_refl eq_refl eq_refl) as (Hbody & Hsame & _).
  split; [apply Hbody | apply Hsame].
Defined.

(** ** The sales aggregator: claims *)

(** The values that fail [isinstance(v, int)]: null (also what a missing
    key reads as), floating-point numbers, text, lists and records. *)
Lemma isinstance_int_false (v : pyval) :
  isinstance_int v = false <->
  v = PNone \/ (exists x, v = PFloat x) \/ (exists s, v = PStr s)
  \/ (exists l, v = PList l) \/ (exists d, v = PDict d).
Proof.
  split.
  - destruct v; simpl; try discriminate; eauto 10.
  - intros [->|[[x ->]|[[s ->]|[[l ->]|[d ->]]]]]; reflexivity.
Qed.

Lemma items_get_missing (items : list (string * pyval)) (key : string) :
  Forall (fun kv => fst kv <> key) items -> items_get items key = PNone.
Proof.
  induction 1 as [|[k v] items Hk _ IH]; simpl; [reflexivity|].
  simpl in Hk. destruct (String.eqb_spec k key); [contradiction | exact IH].
Qed.

(** C4. A sale row whose Quantity is missing or fails the integer type test
    (a float such as [5.0] fails it, whole or not) is skipped: the total is
    returned unchanged, exactly one line is printed, the row contributes
    nothing, and for a row with a text Product that line is the
    invalid-quantity diagnostic naming the product. *)
Theorem invalid_quantity_skipped
    (prices : gmap string float) (sale : pyval) (total : float) (w : world) :
  isinstance_int (py_get sale "Quantity") = false ->
  (exists line,
      compute_total_sales_body prices sale total w = (Returned total, emit w [line]))
  /\ contribution prices sale = None
  /\ (forall product,
         isinstance_dict sale = true ->
         py_get sale "Product" = PStr product ->
         compute_total_sales_body prices sale total w
         = (Returned total,
            emit w ["ERROR: Invalid quantity for product '" +:+ product +:+ "' (skipped)"])).
Proof.
  intros Hq.
  assert (Hm : matched prices sale = false).
  { unfold matched, valid_sale. rewrite Hq.
    by rewrite andb_false_r. }
  split; [by apply sale_body_skip|]. split.
  - unfold contribution. by rewrite Hm.
  - intros product Hd Hp. unfold compute_total_sales_body.
    rewrite Hd, Hp, Hq. reflexivity.
Qed.

Lemma invalid_quantity_skipped_witness :
  compute_total_sales_body example_prices
    (sale_row "Widget" (PFloat (dyadic 5 0))) thirty quiet_world
  = (Returned thirty,
     emit quiet_world ["ERROR: Invalid quantity for product 'Widget' (skipped)"]).
Proof.
  apply (proj2 (proj2 (invalid_quantity_skipped example_prices
                         (sale_row "Widget" (PFloat (dyadic 5 0))) thirty quiet_world
                         eq_refl))
               "Widget"); reflexivity.
Defined.

(** C9. Booleans pass both type tests.  A sale row with a boolean Quantity
    on a catalogued product is not skipped: nothing is printed and the
    total grows by the unit price times [1.0] (for [true]) or [0.0] (for
    [false]).  A catalogue entry with a boolean price is not skipped either:
    nothing is printed and its title enters the mapping at [1.0] or [0.0]. *)
Theorem booleans_pass_the_type_tests (b : bool) :
  (forall prices sale product price total w,
      isinstance_dict sale = true ->
      py_get sale "Product" = PStr product ->
      py_get sale "Quantity" = PBool b ->
      prices !! product = Some price ->
      compute_total_sales_body prices sale total w
      = (Returned (fadd total (fmul price (float_of_bool b))), w))
  /\ (forall item title prices w,
         isinstance_dict item = true ->
         py_get item "title" = PStr title ->
         py_get item "price" = PBool b ->
         build_price_dictionary_body item prices w
         = (Returned (<[title := float_of_bool b]> prices), w)).
Proof.
  split.
  - intros prices sale product price total w Hd Hp Hq Hl.
    unfold compute_total_sales_body. rewrite Hd, Hp, Hq, Hl.
    destruct b; reflexivity.
  - intros item title prices w Hd Ht Hp.
    unfold build_price_dictionary_body. rewrite Hd, Ht, Hp.
    destruct b; reflexivity.
Qed.

Lemma booleans_pass_the_type_tests_witness :
  compute_total_sales_body example_prices (sale_row "Gadget" (PBool true))
    pos_zero quiet_world
  = (Returned (fadd pos_zero (fmul (dyadic 10 0) (float_of_bool true))), quiet_world)
  /\ build_price_dictionary_body (product_entry "Gizmo" (PBool false))
       example_prices quiet_world
     = (Returned (<["Gizmo" := float_of_bool false]> example_prices), quiet_world).
Proof.
  split.
  - apply (proj1 (booleans_pass_the_type_tests true)
                 example_prices (sale_row "Gadget" (PBool true)) "Gadget" (dyadic 10 0));
      reflexivity.
  - apply (proj2 (booleans_pass_the_type_tests false)
                 (product_entry "Gizmo" (PBool false)) "Gizmo"); reflexivity.
Defined.

(** The aggregator touches nothing but the console. *)
Lemma sales_loop_world prices sales total (w : world) :
  let w' := snd (for_each (compute_total_sales_body prices) sales total w) in
  disk w' = disk w /\ written w' = written w /\ now w' = now w /\ tick w' = tick w.
Proof.
  revert total w. induction sales as [|sale sales IH]; intros total w; simpl; [done|].
  unfold bind. destruct (matched prices sale) eqn:Hm.
  - rewrite (sale_body_matched _ _ _ _ Hm).
    destruct (sale_amount prices sale); [apply IH | done].
  - destruct (sale_body_skip _ _ total w Hm) as [line ->].
    destruct (IH total (emit w [line])) as (?&?&?&?). done.
Qed.

(** The outcome of the aggregator does not depend on the world it runs in. *)
Lemma sales_loop_outcome prices sales total (w1 w2 : world) :
  fst (for_each (compute_total_sales_body prices) sales total w1)
  = fst (for_each (compute_total_sales_body prices) sales total w2).
Proof.
  revert total w1 w2. induction sales as [|sale sales IH]; intros total w1 w2; simpl;
    [reflexivity|].
  unfold bind. destruct (matched prices sale) eqn:Hm.
  - rewrite !(sale_body_matched _ _ _ _ Hm).
    destruct (sale_amount prices sale); [apply IH | reflexivity].
  - destruct (sale_body_skip _ _ total w1 Hm) as [l1 ->].
    destruct (sale_body_skip _ _ total w2 Hm) as [l2 ->]. apply IH.
Qed.

(** C6. [compute_total_sales] is deterministic: on equal sales lists and
    equal price mappings two runs have the same outcome (the same total),
    whatever the console, the files and the clock of each run are; and a run
    neither reads nor changes the files and the clock. *)
Theorem compute_total_sales_deterministic
    (sales1 sales2 : list pyval) (prices1 prices2 : gmap string float) (w1 w2 : world) :
  sales1 = sales2 -> prices1 = prices2 ->
  fst (compute_total_sales sales1 prices1 w1) = fst (compute_total_sales sales2 prices2 w2)
  /\ disk (snd (compute_total_sales sales1 prices1 w1)) = disk w1
  /\ written (snd (compute_total_sales sales1 prices1 w1)) = written w1
  /\ tick (snd (compute_total_sales sales1 prices1 w1)) = tick w1.
Proof.
  intros <- <-. unfold compute_total_sales. split.
  - apply sales_loop_outcome.
  - destruct (sales_loop_world prices1 sales1 pos_zero w1) as (?&?&?&?). done.
Qed.

Lemma compute_total_sales_deterministic_witness :
  fst (compute_total_sales example_sales example_prices quiet_world)
  = fst (compute_total_sales example_sales example_prices
           (emit quiet_world ["Compute Sales"])).
Proof.
  exact (proj1 (compute_total_sales_deterministic
                  example_sales example_sales example_prices example_prices
                  quiet_world (emit quiet_world ["Compute Sales"]) eq_refl eq_refl)).
Defined.

(** ** The command line: fatal conditions *)

Section MainFacts.

Variable json_loads : string -> option pyval.
Variable format_2f : float -> string.
Variable format_float : float -> string.

Lemma load_json_file_run filename (w : world) :
  load_json_file json_loads filename w =
  match loads json_loads w filename with
  | Some v => (Returned v, w)
  | None =>
      (Raised (SystemExit 1),
       emit w [match disk w !! filename with
               | None => "ERROR: File not found: " +:+ filename
               | Some _ => "ERROR: Invalid JSON format in file: " +:+ filename
               end])
  end.
Proof.
  unfold load_json_file, loads, try_except, bind, open_read, json_load.
  destruct (disk w !! filename) as [text|]; [|reflexivity].
  destruct (json_loads text); reflexivity.
Qed.

(** Under a fatal condition the two inputs do not both load as lists. *)
Lemma fatal_inputs argv (w : world) catalogue sales :
  fatal json_loads argv w ->
  length argv = 3%nat ->
  loads json_loads w (nth 1 argv EmptyString) = Some (PList catalogue) ->
  loads json_loads w (nth 2 argv EmptyString) = Some (PList sales) ->
  False.
Proof.
  unfold loads.
  intros [Hn | i Hn [-> | ->] Hd | i text Hn [-> | ->] Hd Hj
          | i text v Hn [-> | ->] Hd Hj Hl] Hlen H1 H2;
    try contradiction; rewrite Hd in *; try discriminate;
    rewrite Hj in *; try discriminate.
  - injection H1 as ->. discriminate.
  - injection H2 as ->. discriminate.
Qed.

(** With three arguments, [main] either has both inputs loaded as lists
    or stops with status 1 after one line. *)
Lemma main_three_arguments argv (w : world) :
  length argv = 3%nat ->
  (exists catalogue sales,
      loads json_loads w (nth 1 argv EmptyString) = Some (PList catalogue)
      /\ loads json_loads w (nth 2 argv EmptyString) = Some (PList sales))
  \/ (exists line,
         main json_loads format_2f format_float argv w
         = (Raised (SystemExit 1),
            emit {| stdout := stdout w; disk := disk w; written := written w;
                    now := now w; tick := S (tick w) |} [line])).
Proof.
  intros Hlen. unfold main, bind, time_time. rewrite Hlen.
  change (negb (3 =? 3)%nat) with false. cbv beta iota.
  set (w1 := {| stdout := stdout w; disk := disk w; written := written w;
                now := now w; tick := S (tick w) |}).
  assert (Hloads : forall f, loads json_loads w1 f = loads json_loads w f) by reflexivity.
  rewrite !load_json_file_run, Hloads.
  destruct (loads json_loads w (nth 1 argv EmptyString)) as [c|] eqn:Hc; [|eauto].
  rewrite load_json_file_run, Hloads.
  destruct (loads json_loads w (nth 2 argv EmptyString)) as [s|] eqn:Hs; [|eauto].
  destruct c; try (right; eexists; reflexivity).
  destruct s; try (right; eexists; reflexivity).
  left. eauto.
Qed.

Lemma main_wrong_argument_count argv (w : world) :
  length argv <> 3%nat ->
  main json_loads format_2f format_float argv w
  = (Raised (SystemExit 1),
     emit {| stdout := stdout w; disk := disk w; written := written w;
             now := now w; tick := S (tick w) |}
       ["Usage: python computeSales.py priceCatalogue.json salesRecord.json"]).
Proof.
  intros Hlen. unfold main, bind, time_time.
  destruct (Nat.eqb_spec (length argv) 3%nat); [contradiction | reflexivity].
Qed.

(** C7. Under every fatal condition (an argument count other than 2, a
    missing input file, an input that is not JSON, an input whose top
    level is not a list) the process stops with exit status 1 after
    printing exactly one line, and no file is written or changed; so
    whenever a run writes the result file, no fatal condition held. *)
Theorem fatal_conditions_exit_without_report (argv : list string) (w : world) :
  let run := main json_loads format_2f format_float argv w in
  (fatal json_loads argv w ->
   fst run = Raised (SystemExit 1)
   /\ exit_status (fst run) = 1
   /\ (exists line, stdout (snd run) = stdout w ++ [line])
   /\ disk (snd run) = disk w
   /\ written (snd run) = written w)
  /\ (written (snd run) <> written w -> ~ fatal json_loads argv w).
Proof.
  intros run.
  assert (H : fatal json_loads argv w ->
              exists line,
                run = (Raised (SystemExit 1),
                       emit {| stdout := stdout w; disk := disk w;
                               written := written w; now := now w;
                               tick := S (tick w) |} [line])).
  { intros Hf. destruct (Nat.eq_dec (length argv) 3%nat) as [Hlen|Hlen].
    - destruct (main_three_arguments argv w Hlen) as [(c & s & Hc & Hs)|Hx];
        [|exact Hx].
      destruct (fatal_inputs _ _ _ _ Hf Hlen Hc Hs).
    - eexists. apply main_wrong_argument_count. exact Hlen. }
  split.
  - intros Hf. destruct (H Hf) as [line ->]. simpl. eauto 10.
  - intros Hw Hf. destruct (H Hf) as [line Hr]. rewrite Hr in Hw.
    apply Hw. reflexivity.
Qed.

End MainFacts.

Lemma fatal_conditions_exit_without_report_witness :
  exit_status
    (fst (main toy_json_loads toy_format toy_format example_argv object_catalogue_world))
  = 1
  /\ disk (snd (main toy_json_loads toy_format toy_format example_argv
                  object_catalogue_world))
     = disk object_catalogue_world.
Proof.
  assert (Hf : fatal toy_json_loads example_argv object_catalogue_world).
  { apply (fatal_not_a_list _ _ _ 1%nat "{}"%string (PDict [])).
    - reflexivity.
    - left. reflexivity.
    - vm_compute. reflexivity.
    - reflexivity.
    - reflexivity. }
  destruct (proj1 (fatal_conditions_exit_without_report
                     toy_json_loads toy_format toy_format
                     example_argv object_catalogue_world) Hf)
    as (_ & Hexit & _ & Hdisk & _).
  split; [exact Hexit | exact Hdisk].
Defined.

(** ** The total of the concrete scenario, and where the aggregation fails *)

(** The scenario of the specification: the catalogue yields the mapping
    Widget at 2.5 and Gadget at 10.0, the total is [30.0], and one line is
    printed, for the unknown Gizmo. *)
Lemma example_total :
  build_price_dictionary example_catalogue quiet_world
  = (Returned example_prices, quiet_world)
  /\ compute_total_sales example_sales example_prices quiet_world
     = (Returned thirty,
        emit quiet_world ["ERROR: Product 'Gizmo' not found in catalogue (skipped)"]).
Proof.
  split.
  - unfold build_price_dictionary, example_catalogue. simpl. unfold bind.
    rewrite (entry_body_valid _ _ _ "Widget" (dyadic 5 (-1)))
      by (vm_compute; reflexivity).
    rewrite (entry_body_valid _ _ _ "Gadget" (dyadic 10 0))
      by (vm_compute; reflexivity).
    reflexivity.
  - unfold compute_total_sales, example_sales. simpl. unfold bind.
    rewrite (sale_body_contribution _ _ _ _ (dyadic 10 0))
      by (vm_compute; reflexivity).
    assert (Hm : matched example_prices (sale_row "Gizmo" (PInt 1)) = false)
      by (vm_compute; reflexivity).
    replace (compute_total_sales_body example_prices (sale_row "Gizmo" (PInt 1))
               (fadd pos_zero (dyadic 10 0)) quiet_world)
      with (Returned (fadd pos_zero (dyadic 10 0)),
            emit quiet_world ["ERROR: Product 'Gizmo' not found in catalogue (skipped)"]).
    2:{ unfold compute_total_sales_body. simpl.
        replace (example_prices !! "Gizmo") with (@None float) by (vm_compute; reflexivity).
        reflexivity. }
    rewrite (sale_body_contribution _ _ _ _ (dyadic 20 0))
      by (vm_compute; reflexivity).
    unfold ret. f_equal.
Qed.

(** C1, at a failing input.  The claim holds of every sales list whose
    valid, matched quantities convert to a float
    ([compute_total_sales_sum], [example_total]); here the Gadget row is
    valid and matched and its quantity, [2^1024], does not convert:
    [compute_total_sales] raises [OverflowError] and returns no sum. *)
Theorem compute_total_sales_raises_on_huge_quantity :
  matched example_prices (sale_row "Gadget" (PInt huge)) = true
  /\ fst (compute_total_sales
            [sale_row "Widget" (PInt 4); sale_row "Gadget" (PInt huge)]
            example_prices quiet_world)
     = Raised OverflowError.
Proof.
  split; [vm_compute; reflexivity|].
  unfold compute_total_sales. simpl. unfold bind.
  rewrite (sale_body_contribution _ _ _ _ (dyadic 10 0)) by (vm_compute; reflexivity).
  rewrite sale_body_matched by (vm_compute; reflexivity).
  replace (sale_amount example_prices (sale_row "Gadget" (PInt huge)))
    with (@Raised float OverflowError) by (vm_compute; reflexivity).
  reflexivity.
Qed.

(** C5, at a failing input.  [compute_total_sales] does not always return:
    on the one-row list [[{"Product": "Widget", "Quantity": -2^1024}]] with
    Widget in the mapping, the multiplication raises [OverflowError].  (No
    valid, matched row gives [0.0]: [compute_total_sales_no_match].) *)
Theorem compute_total_sales_fails_on_one_row :
  fst (compute_total_sales [sale_row "Widget" (PInt (- huge))] example_prices quiet_world)
  = Raised OverflowError.
Proof.
  unfold compute_total_sales. simpl. unfold bind.
  rewrite sale_body_matched by (vm_compute; reflexivity).
  replace (sale_amount example_prices (sale_row "Widget" (PInt (- huge))))
    with (@Raised float OverflowError) by (vm_compute; reflexivity).
  reflexivity.
Qed.

(** ** The running total *)

(** C8, as stated, fails: with the total at [30.0], the valid, matched row
    [{"Product": "Gadget", "Quantity": -1}] (Gadget at 10.0) brings the
    total to [20.0], which is below the total before the row. *)
Lemma negative_quantity_decreases_total :
  matched example_prices (sale_row "Gadget" (PInt (-1))) = true
  /\ compute_total_sales_body example_prices (sale_row "Gadget" (PInt (-1)))
       thirty quiet_world
     = (Returned (dyadic 20 0), quiet_world)
  /\ fleb thirty (dyadic 20 0) = false.
Proof.
  split; [vm_compute; reflexivity|]. split; [|vm_compute; reflexivity].
  rewrite (sale_body_contribution _ _ _ _ (dyadic (-10) 0)) by (vm_compute; reflexivity).
  f_equal.
Qed.

(** A negative amount need not lower the total either: the doubles just
    below [2^60] are 128 apart, so the amount [-10.0] of the row
    [{"Product": "Gadget", "Quantity": -1}] is absorbed by the rounding of
    the sum and the total stays where it was. *)
Lemma small_negative_amount_is_absorbed :
  matched example_prices (sale_row "Gadget" (PInt (-1))) = true
  /\ compute_total_sales_body example_prices (sale_row "Gadget" (PInt (-1)))
       (dyadic (2 ^ 60) 0) quiet_world
     = (Returned (dyadic (2 ^ 60) 0), quiet_world).
Proof.
  split; [vm_compute; reflexivity|].
  rewrite (sale_body_contribution _ _ _ _ (dyadic (-10) 0)) by (vm_compute; reflexivity).
  vm_compute. reflexivity.
Qed.

(** C8, amended. For every valid, matched sale row whose amount (unit price
    times quantity) is computed, the total after the row is the total
    before plus that amount, in binary64 arithmetic, and nothing is
    printed.  When the total before is a well-formed double other than NaN,
    the total after the row is greater than or equal to it whenever the
    amount is not negative (the sum [-inf + inf] apart), and less than or
    equal to it whenever the amount is not positive (the sum [inf + -inf]
    apart): a negative amount never raises the total, and lowers it unless
    rounding absorbs it. *)
Theorem total_after_valid_row
    (prices : gmap string float) (sale : pyval) (total amount : float) (w : world) :
  matched prices sale = true ->
  sale_amount prices sale = Returned amount ->
  compute_total_sales_body prices sale total w = (Returned (fadd total amount), w)
  /\ (valid total = true ->
      is_nan total = false ->
      fleb pos_zero amount = true ->
      ~ (total = neg_inf /\ amount = pos_inf) ->
      fleb total (fadd total amount) = true)
  /\ (valid total = true ->
      is_nan total = false ->
      fleb amount pos_zero = true ->
      ~ (total = pos_inf /\ amount = neg_inf) ->
      fleb (fadd total amount) total = true).
Proof.
  intros Hm Ha. split; [|split].
  - rewrite (sale_body_matched _ _ _ _ Hm), Ha. reflexivity.
  - intros Hv Hn Hx Hinf. apply fadd_nonneg_ge; try assumption.
    intros ->. discriminate.
  - intros Hv Hn Hx Hinf. apply fadd_nonpos_le; try assumption.
    intros ->. discriminate.
Qed.

Lemma total_after_valid_row_witness :
  (compute_total_sales_body example_prices (sale_row "Gadget" (PInt 2))
     (dyadic 10 0) quiet_world
   = (Returned (fadd (dyadic 10 0) (dyadic 20 0)), quiet_world)
   /\ fleb (dyadic 10 0) (fadd (dyadic 10 0) (dyadic 20 0)) = true)
  /\ (compute_total_sales_body example_prices (sale_row "Gadget" (PInt (-1)))
        thirty quiet_world
      = (Returned (fadd thirty (dyadic (-10) 0)), quiet_world)
      /\ fleb (fadd thirty (dyadic (-10) 0)) thirty = true).
Proof.
  split.
  - destruct (total_after_valid_row example_prices (sale_row "Gadget" (PInt 2))
                (dyadic 10 0) (dyadic 20 0) quiet_world)
      as (Hstep & Hge & _).
    + vm_compute. reflexivity.
    + vm_compute. reflexivity.
    + split; [exact Hstep|]. apply Hge.
      * vm_compute. reflexivity.
      * vm_compute. reflexivity.
      * vm_compute. reflexivity.
      * intros [H _]. vm_compute in H. discriminate H.
  - destruct (total_after_valid_row example_prices (sale_row "Gadget" (PInt (-1)))
                thirty (dyadic (-10) 0) quiet_world)
      as (Hstep & _ & Hle).
    + vm_compute. reflexivity.
    + vm_compute. reflexivity.
    + split; [exact Hstep|]. apply Hle.
      * vm_compute. reflexivity.
      * vm_compute. reflexivity.
      * vm_compute. reflexivity.
      * intros [H _]. vm_compute in H. discriminate H.
Defined.

(** ** Along a run *)

Lemma float_of_int_valid (n : Z) (x : float) :
  float_of_int n = Returned x -> valid x = true.
Proof.
  unfold float_of_int. intros H.
  assert (Hv : valid (dyadic n 0) = true) by apply binary_normalize_valid.
  destruct (dyadic n 0); try discriminate; injection H as <-; exact Hv.
Qed.

(** The amount of a valid, matched row is a well-formed double when the
    price is. *)
Lemma contribution_valid prices sale amount :
  wf_prices prices -> contribution prices sale = Some amount -> valid amount = true.
Proof.
  intros Hw. unfold contribution, matched, valid_sale, sale_amount, float_mul.
  destruct (isinstance_dict sale); simpl; [|discriminate].
  destruct (isinstance_str (py_get sale "Product")); simpl; [|discriminate].
  destruct (py_get sale "Quantity") as [|b|n| | | |]; simpl; try discriminate.
  - destruct (prices !! product_of sale) as [price|] eqn:Hp; simpl; [|discriminate].
    destruct (float_of_int (int_of_bool b)) as [q|] eqn:Hq; [|discriminate].
    intros [= <-]. apply fmul_valid; [exact (Hw _ _ Hp) | exact (float_of_int_valid _ _ Hq)].
  - destruct (prices !! product_of sale) as [price|] eqn:Hp; simpl; [|discriminate].
    destruct (float_of_int n) as [q|] eqn:Hq; [|discriminate].
    intros [= <-]. apply fmul_valid; [exact (Hw _ _ Hp) | exact (float_of_int_valid _ _ Hq)].
Qed.

(** In a run over rows whose amounts are not negative, every total reached
    is a well-formed double that is not negative (so neither a NaN nor
    [-inf]). *)
Lemma running_total_nonneg prices sales total (w : world) total' w' :
  wf_prices prices ->
  Forall (fun sale => forall amount,
              contribution prices sale = Some amount -> fleb pos_zero amount = true)
         sales ->
  valid total = true -> fleb pos_zero total = true ->
  for_each (compute_total_sales_body prices) sales total w = (Returned total', w') ->
  valid total' = true /\ fleb pos_zero total' = true.
Proof.
  intros Hw Hs. revert total w.
  induction Hs as [|sale sales Ha _ IH]; intros total w Hv Hz; simpl.
  - unfold ret. intros [= <- _]. split; assumption.
  - unfold bind. destruct (matched prices sale) eqn:Hm.
    + rewrite (sale_body_matched _ _ _ _ Hm).
      destruct (sale_amount prices sale) as [amount|e] eqn:Hamt; [|discriminate].
      assert (Hc : contribution prices sale = Some amount).
      { unfold contribution. rewrite Hm, Hamt. reflexivity. }
      apply IH.
      * apply fadd_valid; [exact Hv | exact (contribution_valid _ _ _ Hw Hc)].
      * apply (fleb_nonneg_trans total); [exact Hz|].
        apply fadd_nonneg_ge; [exact Hv | | exact (Ha _ Hc) |].
        -- intros ->. discriminate.
        -- intros [-> _]. discriminate.
    + destruct (sale_body_skip _ _ total w Hm) as [line ->]. apply IH; assumption.
Qed.

(** X15. The running total of a run over rows whose amounts are not
    negative never decreases.  With well-formed prices, when the rows
    processed so far all had amounts that are not negative and the next
    valid, matched row has one too, the total after that row is greater
    than or equal to the total before it; no side condition on NaN or
    infinities is needed, since such a run never reaches them. *)
Lemma running_total_nondecreasing prices before sale (w0 w : world) total amount :
  wf_prices prices ->
  Forall (fun row => forall a,
              contribution prices row = Some a -> fleb pos_zero a = true)
         before ->
  for_each (compute_total_sales_body prices) before pos_zero w0 = (Returned total, w) ->
  contribution prices sale = Some amount ->
  fleb pos_zero amount = true ->
  compute_total_sales_body prices sale total w = (Returned (fadd total amount), w)
  /\ fleb total (fadd total amount) = true.
Proof.
  intros Hw Hb Hrun Hc Ha.
  destruct (running_total_nonneg prices before pos_zero w0 total w Hw Hb eq_refl eq_refl Hrun)
    as [Hv Hz].
  split; [exact (sale_body_contribution _ _ _ _ _ Hc)|].
  apply fadd_nonneg_ge; [exact Hv | | exact Ha |].
  - intros ->. discriminate.
  - intros [-> _]. discriminate.
Qed.

(** A row that is not valid and matched can be taken out of the sales list
    without changing the outcome: it contributes nothing. *)
Lemma unmatched_row_contributes_nothing prices before sale after (w : world) :
  matched prices sale = false ->
  fst (compute_total_sales (before ++ sale :: after) prices w)
  = fst (compute_total_sales (before ++ after) prices w).
Proof.
  intros Hm. unfold compute_total_sales. rewrite !for_each_app.
  destruct (for_each (compute_total_sales_body prices) before pos_zero w)
    as [[total|e] w1]; [|reflexivity].
  simpl. unfold bind. destruct (sale_body_skip _ _ total w1 Hm) as [line ->].
  apply sales_loop_outcome.
Qed.

(** ** What the aggregator can raise, and what it prints *)

Lemma float_of_int_raises (n : Z) (e : exn) :
  float_of_int n = Raised e -> e = OverflowError.
Proof.
  unfold float_of_int. destruct (dyadic n 0); intros H; try discriminate.
  congruence.
Qed.

Lemma float_of_bool_returns (b : bool) :
  float_of_int (int_of_bool b) = Returned (float_of_bool b).
Proof. destruct b; reflexivity. Qed.

Lemma sale_amount_raises prices sale (e : exn) :
  matched prices sale = true -> sale_amount prices sale = Raised e ->
  e = OverflowError.
Proof.
  unfold matched, valid_sale, sale_amount, float_mul.
  destruct (isinstance_dict sale); simpl; [|discriminate].
  destruct (isinstance_str (py_get sale "Product")); simpl; [|discriminate].
  destruct (py_get sale "Quantity") as [|b|n| | | |]; simpl; try discriminate.
  - rewrite float_of_bool_returns. discriminate.
  - intros _. destruct (float_of_int n) as [q|e'] eqn:Hq; [discriminate|].
    intros [= <-]. exact (float_of_int_raises _ _ Hq).
Qed.

Lemma sales_loop_raised prices sales total (w : world) (e : exn) w' :
  for_each (compute_total_sales_body prices) sales total w = (Raised e, w') ->
  e = OverflowError
  /\ Exists (fun sale => matched prices sale = true
                         /\ sale_amount prices sale = Raised OverflowError) sales.
Proof.
  revert total w. induction sales as [|sale sales IH]; intros total w; simpl.
  - discriminate.
  - unfold bind. destruct (matched prices sale) eqn:Hm.
    + rewrite (sale_body_matched _ _ _ _ Hm).
      destruct (sale_amount prices sale) as [amount|e'] eqn:Ha.
      * intros H. destruct (IH _ _ H) as [-> Hex]. split; [reflexivity|].
        apply Exists_cons_tl. exact Hex.
      * intros [= <- _]. pose proof (sale_amount_raises _ _ _ Hm Ha) as ->.
        split; [reflexivity|]. apply Exists_cons_hd. split; assumption.
    + destruct (sale_body_skip _ _ total w Hm) as [line ->].
      intros H. destruct (IH _ _ H) as [-> Hex]. split; [reflexivity|].
      apply Exists_cons_tl. exact Hex.
Qed.

(** X1. What [compute_total_sales] returns, and when it cannot.  Whenever
    the call returns, every valid, matched row had a quantity that converts
    to a float and the value returned is the sum, in input order, of unit
    price times quantity over the valid, matched rows.  Whenever it raises
    [OverflowError], some valid, matched row has a quantity that does not
    convert; and on a list with such a row the call raises, it yields no
    total. *)
Theorem compute_total_sales_outcome
    (sales : list pyval) (prices : gmap string float) (w : world) :
  (forall total w',
      compute_total_sales sales prices w = (Returned total, w') ->
      quantities_in_range prices sales
      /\ total = sum_of_contributions prices sales)
  /\ (fst (compute_total_sales sales prices w) = Raised OverflowError ->
      Exists (fun sale => matched prices sale = true
                          /\ sale_amount prices sale = Raised OverflowError)
             sales)
  /\ (Exists (fun sale => matched prices sale = true
                          /\ sale_amount prices sale = Raised OverflowError)
             sales ->
      exists e, fst (compute_total_sales sales prices w) = Raised e).
Proof.
  split; [|split].
  - intros total w' H. split.
    + exact (sales_loop_returns _ _ _ _ _ _ H).
    + exact (compute_total_sales_returned _ _ _ _ _ H).
  - intros He. unfold compute_total_sales in He.
    destruct (for_each (compute_total_sales_body prices) sales pos_zero w)
      as [r w'] eqn:Hrun.
    simpl in He. subst r. exact (proj2 (sales_loop_raised _ _ _ _ _ _ Hrun)).
  - intros Hex.
    destruct (compute_total_sales sales prices w) as [[total|e] w'] eqn:Hrun;
      [exfalso|simpl; eauto].
    pose proof (sales_loop_returns _ _ _ _ _ _ Hrun) as Hq.
    unfold quantities_in_range in Hq. rewrite List.Forall_forall in Hq.
    apply List.Exists_exists in Hex as (sale & Hin & Hm & Ha).
    destruct (Hq sale Hin Hm) as [amount Hc].
    unfold contribution in Hc. rewrite Hm, Ha in Hc. discriminate.
Qed.

Lemma compute_total_sales_outcome_witness :
  quantities_in_range example_prices example_sales
  /\ thirty = sum_of_contributions example_prices example_sales.
Proof.
  exact (proj1 (compute_total_sales_outcome example_sales example_prices quiet_world)
           thirty _ (proj2 example_total)).
Defined.

Lemma sale_body_skip_line prices sale total (w : world) :
  matched prices sale = false ->
  exists message,
    compute_total_sales_body prices sale total w
    = (Returned total, emit w ["ERROR: " +:+ message]).
Proof.
  unfold matched, valid_sale, product_of, compute_total_sales_body.
  destruct (isinstance_dict sale); simpl; [|eauto].
  destruct (py_get sale "Product") as [| | | |product| |]; simpl; eauto.
  destruct (isinstance_int (py_get sale "Quantity")); simpl; [|eauto].
  destruct (prices !! product) as [price|] eqn:Hp; simpl; [discriminate | eauto].
Qed.

Lemma sales_loop_lines prices sales total (w : world) total' w' :
  for_each (compute_total_sales_body prices) sales total w = (Returned total', w') ->
  exists lines,
    w' = emit w lines
    /\ length lines = count_if (fun sale => negb (matched prices sale)) sales
    /\ Forall is_error_line lines.
Proof.
  revert total w. induction sales as [|sale sales IH]; intros total w; simpl.
  - unfold ret. intros [= _ <-]. exists []. rewrite emit_nil. repeat split. constructor.
  - unfold bind. destruct (matched prices sale) eqn:Hm.
    + rewrite (sale_body_matched _ _ _ _ Hm).
      destruct (sale_amount prices sale) as [amount|e]; [|discriminate].
      intros H. destruct (IH _ _ H) as (lines & -> & Hlen & Hall).
      exists lines. repeat split; assumption.
    + destruct (sale_body_skip_line _ _ total w Hm) as [message ->].
      intros H. destruct (IH _ _ H) as (lines & -> & Hlen & Hall).
      exists (("ERROR: " +:+ message) :: lines). rewrite emit_emit.
      repeat split.
      * simpl. rewrite Hlen. reflexivity.
      * constructor; [exists message; reflexivity | exact Hall].
Qed.

(** X2. One diagnostic per skipped row.  When [compute_total_sales]
    returns, the console has grown by exactly as many lines as there are
    rows that are not valid and matched, every one of them printed by
    [print_error] (it starts with ["ERROR: "]); nothing is printed for the
    rows that count. *)
Theorem compute_total_sales_diagnostics
    (sales : list pyval) (prices : gmap string float) (w : world) (total : float) w' :
  compute_total_sales sales prices w = (Returned total, w') ->
  exists lines,
    stdout w' = stdout w ++ lines
    /\ length lines = count_if (fun sale => negb (matched prices sale)) sales
    /\ Forall is_error_line lines.
Proof.
  intros H. destruct (sales_loop_lines _ _ _ _ _ _ H) as (lines & -> & Hlen & Hall).
  exists lines. repeat split; assumption.
Qed.

Lemma compute_total_sales_diagnostics_witness :
  exists lines,
    stdout (emit quiet_world
              ["ERROR: Product 'Gizmo' not found in catalogue (skipped)"])
    = stdout quiet_world ++ lines
    /\ length lines
       = count_if (fun sale => negb (matched example_prices sale)) example_sales
    /\ Forall is_error_line lines.
Proof.
  exact (compute_total_sales_diagnostics example_sales example_prices quiet_world
           thirty _ (proj2 example_total)).
Defined.

Lemma sales_loop_filter prices sales total (w1 w2 : world) :
  fst (for_each (compute_total_sales_body prices) sales total w1)
  = fst (for_each (compute_total_sales_body prices)
           (List.filter (matched prices) sales) total w2).
Proof.
  revert total w1 w2. induction sales as [|sale sales IH]; intros total w1 w2; simpl;
    [reflexivity|].
  destruct (matched prices sale) eqn:Hm; simpl; unfold bind.
  - rewrite !(sale_body_matched _ _ _ _ Hm).
    destruct (sale_amount prices sale); [apply IH | reflexivity].
  - destruct (sale_body_skip _ _ total w1 Hm) as [line ->]. apply IH.
Qed.

(** X3. Only the valid, matched rows count.  Whenever
    [compute_total_sales] returns a total for a sales list, it returns the
    same total, and prints nothing, for the list with every other row taken
    out: rows that are not records, that lack a text Product or an integer
    Quantity, or whose product is not in the mapping add nothing, wherever
    they stand in the list.  And when the call on the valid, matched rows
    alone raises, the call on the whole list raises as well. *)
Theorem compute_total_sales_ignores_other_rows
    (sales : list pyval) (prices : gmap string float) (w : world) :
  (forall total w',
      compute_total_sales sales prices w = (Returned total, w') ->
      forall w2,
        compute_total_sales (List.filter (matched prices) sales) prices w2
        = (Returned total, w2))
  /\ (forall e,
         fst (compute_total_sales (List.filter (matched prices) sales) prices w)
         = Raised e ->
         exists e', fst (compute_total_sales sales prices w) = Raised e').
Proof.
  split.
  - intros total w' H w2.
    pose proof (sales_loop_filter prices sales pos_zero w w2) as Hf.
    fold (compute_total_sales sales prices) in Hf.
    fold (compute_total_sales (List.filter (matched prices) sales) prices) in Hf.
    rewrite H in Hf. simpl in Hf.
    destruct (compute_total_sales (List.filter (matched prices) sales) prices w2)
      as [r w3] eqn:Hrun.
    simpl in Hf. subst r.
    destruct (sales_loop_lines _ _ _ _ _ _ Hrun) as (lines & -> & Hlen & _).
    assert (Hz : count_if (fun sale => negb (matched prices sale))
                   (List.filter (matched prices) sales) = 0%nat).
    { clear. induction sales as [|sale sales IH]; simpl; [reflexivity|].
      destruct (matched prices sale) eqn:Hm; simpl; [rewrite Hm; exact IH | exact IH]. }
    rewrite Hz in Hlen. destruct lines; [|discriminate].
    by rewrite emit_nil.
  - intros e He.
    pose proof (sales_loop_filter prices sales pos_zero w w) as Hf.
    fold (compute_total_sales sales prices) in Hf.
    fold (compute_total_sales (List.filter (matched prices) sales) prices) in Hf.
    rewrite He in Hf. eauto.
Qed.

Lemma compute_total_sales_ignores_other_rows_witness :
  compute_total_sales [sale_row "Widget" (PInt 4); sale_row "Gadget" (PInt 2)]
    example_prices quiet_world
  = (Returned thirty, quiet_world).
Proof.
  pose proof (proj1 (compute_total_sales_ignores_other_rows
                       example_sales example_prices quiet_world)
                thirty _ (proj2 example_total) quiet_world) as H.
  replace (List.filter (matched example_prices) example_sales)
    with [sale_row "Widget" (PInt 4); sale_row "Gadget" (PInt 2)] in H
    by (vm_compute; reflexivity).
  exact H.
Defined.

(** X4. No valid, matched row: the total is exactly [0.0] and each row gets
    its diagnostic.  The empty list is the case of no row at all, and an
    empty mapping matches no row. *)
Theorem no_matched_row_totals_zero
    (sales : list pyval) (prices : gmap string float) (w : world) :
  Forall (fun sale => matched prices sale = false) sales ->
  exists lines,
    compute_total_sales sales prices w = (Returned pos_zero, emit w lines)
    /\ length lines = length sales
    /\ Forall is_error_line lines.
Proof.
  intros Hn. pose proof (compute_total_sales_no_match _ _ w Hn) as H0.
  destruct (compute_total_sales sales prices w) as [r w'] eqn:Hrun.
  simpl in H0. subst r.
  destruct (sales_loop_lines _ _ _ _ _ _ Hrun) as (lines & -> & Hlen & Hall).
  exists lines. split; [reflexivity|]. split; [|exact Hall].
  rewrite Hlen. clear -Hn. induction Hn as [|sale sales Hs _ IH]; simpl; [reflexivity|].
  rewrite Hs, IH. reflexivity.
Qed.

Lemma no_matched_row_totals_zero_witness :
  exists lines,
    compute_total_sales [PNone; sale_row "Widget" (PInt 4)] ∅ quiet_world
    = (Returned pos_zero, emit quiet_world lines)
    /\ length lines = 2%nat
    /\ Forall is_error_line lines.
Proof.
  apply (no_matched_row_totals_zero [PNone; sale_row "Widget" (PInt 4)] ∅ quiet_world).
  repeat constructor.
Defined.

(** ** More on the catalogue indexer *)

Lemma index_entries_lookup catalogue prices title :
  fold_left index_entry catalogue prices !! title
  = match last_valid_price catalogue title with
    | Some p => Some p
    | None => prices !! title
    end.
Proof.
  unfold last_valid_price. revert prices.
  induction catalogue as [|item catalogue IH]; intros prices; [reflexivity|].
  cbn [fold_left]. rewrite IH.
  change (omap (price_for title) (item :: catalogue))
    with (match price_for title item with
          | Some p => p :: omap (price_for title) catalogue
          | None => omap (price_for title) catalogue
          end).
  set (L := omap (price_for title) catalogue).
  unfold index_entry, price_for.
  destruct (valid_entry item) as [[t p]|] eqn:Hv; [|reflexivity].
  destruct (String.eqb_spec t title) as [->|Hne].
  - rewrite last_cons. destruct (last L); [reflexivity|]. apply lookup_insert_eq.
  - destruct (last L); [reflexivity|]. by apply lookup_insert_ne.
Qed.

(** X5. What the mapping holds.  In every mapping that
    [build_price_dictionary] returns, a title is bound to the price of the
    last valid entry with that title, and a title that no valid entry
    carries is not a key: an invalid entry never enters the mapping. *)
Theorem build_price_dictionary_lookup
    (catalogue : list pyval) (w : world) (prices : gmap string float) w' (title : string) :
  build_price_dictionary catalogue w = (Returned prices, w') ->
  prices !! title = last_valid_price catalogue title.
Proof.
  intros H. unfold build_price_dictionary in H.
  apply catalogue_loop_returned in H. subst prices.
  rewrite index_entries_lookup, lookup_empty.
  destruct (last_valid_price catalogue title); reflexivity.
Qed.

Lemma build_price_dictionary_lookup_witness :
  example_prices !! "Gizmo" = last_valid_price example_catalogue "Gizmo".
Proof.
  exact (build_price_dictionary_lookup example_catalogue quiet_world example_prices
           quiet_world "Gizmo" (proj1 example_total)).
Defined.

Lemma entry_body_skip_line item prices (w : world) :
  skipped_entry item = true ->
  exists message,
    build_price_dictionary_body item prices w
    = (Returned prices, emit w ["ERROR: " +:+ message]).
Proof.
  unfold skipped_entry, build_price_dictionary_body.
  destruct (isinstance_dict item); simpl; [|eauto].
  destruct (py_get item "title") as [| | | |title| |]; simpl; eauto.
  destruct (isinstance_int_float (py_get item "price")); simpl; [discriminate|eauto].
Qed.

Lemma valid_entry_not_skipped item title p :
  valid_entry item = Some (title, p) -> skipped_entry item = false.
Proof. unfold valid_entry. destruct (skipped_entry item); [discriminate | reflexivity]. Qed.

Lemma catalogue_loop_lines catalogue prices (w : world) prices' w' :
  for_each build_price_dictionary_body catalogue prices w = (Returned prices', w') ->
  exists lines,
    w' = emit w lines
    /\ length lines = count_if skipped_entry catalogue
    /\ Forall is_error_line lines.
Proof.
  revert prices w. induction catalogue as [|item catalogue IH]; intros prices w; simpl.
  - unfold ret. intros [= _ <-]. exists []. rewrite emit_nil. repeat split. constructor.
  - unfold bind. destruct (skipped_entry item) eqn:Hs.
    + destruct (entry_body_skip_line _ prices w Hs) as [message ->].
      intros H. destruct (IH _ _ H) as (lines & -> & Hlen & Hall).
      exists (("ERROR: " +:+ message) :: lines). rewrite emit_emit.
      repeat split.
      * simpl. rewrite Hlen. reflexivity.
      * constructor; [exists message; reflexivity | exact Hall].
    + destruct (valid_entry item) as [[title p]|] eqn:Hv.
      * rewrite (entry_body_valid _ _ _ _ _ Hv).
        intros H. destruct (IH _ _ H) as (lines & -> & Hlen & Hall).
        exists lines. repeat split; assumption.
      * destruct (entry_body_raises _ Hs Hv) as [e He]. rewrite He. discriminate.
Qed.

(** X6. One diagnostic per skipped catalogue entry.  When
    [build_price_dictionary] returns, the console has grown by exactly as
    many lines as there are skipped entries, each printed by [print_error];
    the mapping has at most one key per entry that was not skipped. *)
Theorem build_price_dictionary_diagnostics
    (catalogue : list pyval) (w : world) (prices : gmap string float) w' :
  build_price_dictionary catalogue w = (Returned prices, w') ->
  (exists lines,
      stdout w' = stdout w ++ lines
      /\ length lines = count_if skipped_entry catalogue
      /\ Forall is_error_line lines)
  /\ (size prices + count_if skipped_entry catalogue <= length catalogue)%nat.
Proof.
  intros H. split.
  - destruct (catalogue_loop_lines _ _ _ _ _ H) as (lines & -> & Hlen & Hall).
    exists lines. repeat split; assumption.
  - unfold build_price_dictionary in H. apply catalogue_loop_returned in H.
    subst prices.
    assert (Hsize : forall l (m : gmap string float),
               (size (fold_left index_entry l m) + count_if skipped_entry l
                <= size m + length l)%nat).
    { induction l as [|item l IH]; intros m; simpl; [lia|].
      specialize (IH (index_entry m item)).
      assert (size (index_entry m item) + (if skipped_entry item then 1 else 0)
              <= S (size m))%nat; [|lia].
      unfold index_entry. destruct (valid_entry item) as [[title p]|] eqn:Hv.
      - rewrite (valid_entry_not_skipped _ _ _ Hv).
        destruct (m !! title) as [q|] eqn:Hl.
        + rewrite map_size_insert_Some by eauto. lia.
        + rewrite map_size_insert_None by assumption. lia.
      - destruct (skipped_entry item); lia. }
    specialize (Hsize catalogue ∅). rewrite map_size_empty in Hsize. lia.
Qed.

Lemma build_price_dictionary_diagnostics_witness :
  (exists lines,
      stdout (emit quiet_world
                ["ERROR: Invalid product entry (skipped)";
                 "ERROR: Product 'Gadget' has invalid price (skipped)"])
      = stdout quiet_world ++ lines
      /\ length lines = 2%nat
      /\ Forall is_error_line lines)
  /\ (size (<["Widget" := one]> (∅ : gmap string float)) + 2 <= 3)%nat.
Proof.
  apply (build_price_dictionary_diagnostics
           [product_entry "Widget" (PBool true); PNone; product_entry "Gadget" PNone]
           quiet_world (<["Widget" := one]> ∅)).
  unfold build_price_dictionary. simpl. unfold bind.
  rewrite (entry_body_valid _ _ _ "Widget" one) by (vm_compute; reflexivity).
  reflexivity.
Defined.

Lemma index_entry_commute prices x y :
  (forall t p q, valid_entry x = Some (t, p) -> valid_entry y = Some (t, q) -> False) ->
  index_entry (index_entry prices x) y = index_entry (index_entry prices y) x.
Proof.
  intros Hd. unfold index_entry.
  destruct (valid_entry x) as [[tx px]|] eqn:Hx, (valid_entry y) as [[ty py]|] eqn:Hy;
    try reflexivity.
  apply insert_insert_ne. intros ->. exact (Hd _ _ _ eq_refl eq_refl).
Qed.

Lemma index_entries_permutation (l l' : list pyval) :
  Permutation l l' -> NoDup (valid_titles l) ->
  forall prices, fold_left index_entry l prices = fold_left index_entry l' prices.
Proof.
  induction 1 as [|x l l' Hp IH|x y l|l l' l'' Hp1 IH1 Hp2 IH2]; intros Hnd prices.
  - reflexivity.
  - simpl. apply IH. unfold valid_titles in *. simpl in Hnd.
    destruct (valid_entry x) as [[t p]|]; simpl in Hnd; [|exact Hnd].
    by apply NoDup_cons in Hnd as [_ Hnd].
  - simpl. f_equal. apply index_entry_commute. intros t p q Hy Hx.
    unfold valid_titles in Hnd. simpl in Hnd. rewrite Hy, Hx in Hnd. simpl in Hnd.
    apply NoDup_cons in Hnd as [Hnin _]. apply Hnin. left.
  - rewrite IH1 by assumption. apply IH2.
    unfold valid_titles in *. by rewrite <- Hp1.
Qed.

Lemma catalogue_loop_handled catalogue prices (w : world) prices' w' :
  for_each build_price_dictionary_body catalogue prices w = (Returned prices', w') ->
  Forall handled_entry catalogue.
Proof.
  revert prices w. induction catalogue as [|item catalogue IH]; intros prices w; simpl.
  - constructor.
  - unfold bind, handled_entry. destruct (skipped_entry item) eqn:Hs.
    + destruct (entry_body_skip _ prices w Hs) as [line ->].
      intros H. constructor; [left; exact Hs | exact (IH _ _ H)].
    + destruct (valid_entry item) as [[title p]|] eqn:Hv.
      * rewrite (entry_body_valid _ _ _ _ _ Hv).
        intros H. constructor; [right; eauto | exact (IH _ _ H)].
      * destruct (entry_body_raises _ Hs Hv) as [e He]. rewrite He. discriminate.
Qed.

(** X7. Catalogue order does not matter when titles are distinct.  If the
    valid entries of a catalogue carry pairwise distinct titles and
    [build_price_dictionary] returns a mapping for it, then it returns the
    same mapping for every reordering of the catalogue (the diagnostics may
    come in another order). *)
Theorem build_price_dictionary_order_irrelevant
    (catalogue catalogue' : list pyval) (w : world) (prices : gmap string float) w1 :
  Permutation catalogue catalogue' ->
  NoDup (valid_titles catalogue) ->
  build_price_dictionary catalogue w = (Returned prices, w1) ->
  exists w2, build_price_dictionary catalogue' w = (Returned prices, w2).
Proof.
  intros Hp Hnd H. unfold build_price_dictionary in *.
  pose proof (catalogue_loop_handled _ _ _ _ _ H) as Hh.
  apply catalogue_loop_returned in H. subst prices.
  assert (Hh' : Forall handled_entry catalogue') by (by rewrite <- Hp).
  destruct (catalogue_loop_total catalogue' ∅ w Hh') as [lines ->].
  exists (emit w lines). f_equal. f_equal. symmetry.
  by apply index_entries_permutation.
Qed.

Lemma build_price_dictionary_order_irrelevant_witness :
  exists w2,
    build_price_dictionary
      [product_entry "Gadget" (PInt 10); product_entry "Widget" (PFloat (dyadic 5 (-1)))]
      quiet_world
    = (Returned example_prices, w2).
Proof.
  apply (build_price_dictionary_order_irrelevant example_catalogue _ quiet_world
           example_prices quiet_world).
  - apply perm_swap.
  - apply (bool_decide_unpack _). vm_compute. reflexivity.
  - exact (proj1 example_total).
Defined.

Lemma entry_body_overflow item :
  skipped_entry item = false -> valid_entry item = None ->
  (exists n, py_get item "price" = PInt n /\ float_of_int n = Raised OverflowError)
  /\ forall prices (w : world),
      build_price_dictionary_body item prices w = (Raised OverflowError, w).
Proof.
  unfold valid_entry, skipped_entry, build_price_dictionary_body.
  destruct (isinstance_dict item); simpl; [|discriminate].
  destruct (py_get item "title") as [| | | |t| |]; simpl; try discriminate.
  destruct (py_get item "price") as [|b|n|x| | |]; simpl; try discriminate.
  - rewrite float_of_bool_returns. discriminate.
  - destruct (float_of_int n) as [q|e] eqn:Hq; [discriminate|].
    pose proof (float_of_int_raises _ _ Hq) as ->. intros _ _. split; [eauto|].
    intros prices w. unfold bind, lift. reflexivity.
Qed.

Lemma catalogue_loop_raised catalogue prices (w : world) (e : exn) w' :
  for_each build_price_dictionary_body catalogue prices w = (Raised e, w') ->
  e = OverflowError
  /\ Exists (fun item =>
               exists n, py_get item "price" = PInt n
                         /\ float_of_int n = Raised OverflowError) catalogue.
Proof.
  revert prices w. induction catalogue as [|item catalogue IH]; intros prices w; simpl.
  - discriminate.
  - unfold bind. destruct (skipped_entry item) eqn:Hs.
    + destruct (entry_body_skip _ prices w Hs) as [line ->].
      intros H. destruct (IH _ _ H) as [-> Hex]. split; [reflexivity|].
      apply Exists_cons_tl. exact Hex.
    + destruct (valid_entry item) as [[title p]|] eqn:Hv.
      * rewrite (entry_body_valid _ _ _ _ _ Hv).
        intros H. destruct (IH _ _ H) as [-> Hex]. split; [reflexivity|].
        apply Exists_cons_tl. exact Hex.
      * destruct (entry_body_overflow _ Hs Hv) as [Hn Hb]. rewrite Hb.
        intros [= <- _]. split; [reflexivity|]. apply Exists_cons_hd. exact Hn.
Qed.

(** X8. When [build_price_dictionary] yields a mapping, and when it cannot.
    Whenever the call returns, every entry was skipped or valid: no entry
    had a price that passes the type test and does not convert.  Whenever it
    raises [OverflowError], some entry has an integer price that does not
    convert to a float; text, null, boolean and floating-point prices never
    cause it.  And on a catalogue holding a record with a text title and an
    integer price of magnitude [2^1024] or more the call raises: it yields
    no mapping. *)
Theorem build_price_dictionary_outcome (catalogue : list pyval) (w : world) :
  (forall prices w',
      build_price_dictionary catalogue w = (Returned prices, w') ->
      Forall handled_entry catalogue)
  /\ (fst (build_price_dictionary catalogue w) = Raised OverflowError ->
      Exists (fun item =>
                exists n, py_get item "price" = PInt n
                          /\ float_of_int n = Raised OverflowError)
             catalogue)
  /\ (forall item title n,
         In item catalogue ->
         py_get item "title" = PStr title ->
         py_get item "price" = PInt n ->
         2 ^ 1024 <= Z.abs n ->
         exists e, fst (build_price_dictionary catalogue w) = Raised e).
Proof.
  split; [|split].
  - intros prices w' H. exact (catalogue_loop_handled _ _ _ _ _ H).
  - intros He. unfold build_price_dictionary in He.
    destruct (for_each build_price_dictionary_body catalogue ∅ w) as [r w'] eqn:Hrun.
    simpl in He. subst r. exact (proj2 (catalogue_loop_raised _ _ _ _ _ Hrun)).
  - intros item title n Hin Ht Hp Hn.
    destruct (build_price_dictionary catalogue w) as [[prices|e] w'] eqn:Hrun;
      [exfalso|simpl; eauto].
    pose proof (catalogue_loop_handled _ _ _ _ _ Hrun) as Hh.
    rewrite List.Forall_forall in Hh. specialize (Hh item Hin).
    assert (Hd : isinstance_dict item = true)
      by (destruct item; simpl in Ht; try discriminate; reflexivity).
    unfold handled_entry, valid_entry, skipped_entry in Hh.
    rewrite Hd, Ht, Hp in Hh. cbn [negb orb isinstance_str isinstance_int_float py_float] in Hh.
    rewrite (float_of_int_huge _ Hn) in Hh.
    destruct Hh as [Hh|[x Hh]]; discriminate.
Qed.

Lemma build_price_dictionary_outcome_witness :
  Forall handled_entry
    [product_entry "Widget" (PBool true); PNone; product_entry "Gadget" PNone]
  /\ exists e,
      fst (build_price_dictionary
             [product_entry "Gadget" (PInt 10); product_entry "Widget" (PInt huge)]
             quiet_world)
      = Raised e.
Proof.
  split.
  - apply (proj1 (build_price_dictionary_outcome
                    [product_entry "Widget" (PBool true); PNone;
                     product_entry "Gadget" PNone] quiet_world)
             (<["Widget" := one]> ∅)
             (emit quiet_world
                ["ERROR: Invalid product entry (skipped)";
                 "ERROR: Product 'Gadget' has invalid price (skipped)"])).
    unfold build_price_dictionary. simpl. unfold bind.
    rewrite (entry_body_valid _ _ _ "Widget" one) by (vm_compute; reflexivity).
    reflexivity.
  - apply (proj2 (proj2 (build_price_dictionary_outcome
                           [product_entry "Gadget" (PInt 10);
                            product_entry "Widget" (PInt huge)] quiet_world))
             (product_entry "Widget" (PInt huge)) "Widget" huge).
    + right. left. reflexivity.
    + reflexivity.
    + reflexivity.
    + vm_compute. discriminate.
Defined.

(** X9. Missing keys.  [dict.get] reads a missing key as [None], so a
    record without a key is skipped like one with a null value: a product
    without ["title"] and a sale without ["Product"] get the diagnostic of
    the missing name, a product without ["price"] and a sale without
    ["Quantity"] the diagnostic that names the title or the product; the
    mapping and the total are returned unchanged. *)
Theorem missing_keys_are_skipped (items : list (string * pyval)) (w : world) :
  (Forall (fun kv => fst kv <> "title"%string) items ->
   forall prices,
     build_price_dictionary_body (PDict items) prices w
     = (Returned prices, emit w ["ERROR: Product without valid title (skipped)"]))
  /\ (forall title,
         items_get items "title" = PStr title ->
         Forall (fun kv => fst kv <> "price"%string) items ->
         forall prices,
           build_price_dictionary_body (PDict items) prices w
           = (Returned prices,
              emit w ["ERROR: Product '" +:+ title +:+ "' has invalid price (skipped)"]))
  /\ (Forall (fun kv => fst kv <> "Product"%string) items ->
      forall prices total,
        compute_total_sales_body prices (PDict items) total w
        = (Returned total, emit w ["ERROR: Sale without valid product name (skipped)"]))
  /\ (forall product,
         items_get items "Product" = PStr product ->
         Forall (fun kv => fst kv <> "Quantity"%string) items ->
         forall prices total,
           compute_total_sales_body prices (PDict items) total w
           = (Returned total,
              emit w ["ERROR: Invalid quantity for product '" +:+ product
                      +:+ "' (skipped)"])).
Proof.
  repeat split.
  - intros Hk prices. unfold build_price_dictionary_body. simpl.
    rewrite (items_get_missing _ _ Hk). reflexivity.
  - intros title Ht Hk prices. unfold build_price_dictionary_body. simpl.
    rewrite Ht, (items_get_missing _ _ Hk). reflexivity.
  - intros Hk prices total. unfold compute_total_sales_body. simpl.
    rewrite (items_get_missing _ _ Hk). reflexivity.
  - intros product Hp Hk prices total. unfold compute_total_sales_body. simpl.
    rewrite Hp, (items_get_missing _ _ Hk). reflexivity.
Qed.

Lemma missing_keys_are_skipped_witness :
  build_price_dictionary_body (PDict [("price"%string, PInt 3)]) example_prices quiet_world
  = (Returned example_prices,
     emit quiet_world ["ERROR: Product without valid title (skipped)"])
  /\ compute_total_sales_body example_prices (PDict [("Product"%string, PStr "Widget")])
       thirty quiet_world
     = (Returned thirty,
        emit quiet_world ["ERROR: Invalid quantity for product 'Widget' (skipped)"]).
Proof.
  split.
  - apply (proj1 (missing_keys_are_skipped [("price"%string, PInt 3)] quiet_world)).
    repeat constructor. simpl. discriminate.
  - apply (proj2 (proj2 (proj2 (missing_keys_are_skipped
                                  [("Product"%string, PStr "Widget")] quiet_world)))
                 "Widget").
    + reflexivity.
    + repeat constructor. simpl. discriminate.
Defined.

(** ** The whole run *)


Section RunFacts.

Variable json_loads : string -> option pyval.
Variable format_2f : float -> string.
Variable format_float : float -> string.

(** [main] once both inputs are loaded as lists. *)
Lemma main_run argv (w : world) catalogue sales :
  length argv = 3%nat ->
  loads json_loads w (nth 1 argv EmptyString) = Some (PList catalogue) ->
  loads json_loads w (nth 2 argv EmptyString) = Some (PList sales) ->
  main json_loads format_2f format_float argv w =
  match build_price_dictionary catalogue (started w) with
  | (Raised e, w2) => (Raised e, w2)
  | (Returned prices, w2) =>
      match compute_total_sales sales prices w2 with
      | (Raised e, w3) => (Raised e, w3)
      | (Returned total, w3) =>
          let report :=
            report_text format_2f format_float
              (nth 1 argv EmptyString) (nth 2 argv EmptyString) total
              (fsub (now w3 (tick w3)) (now w (tick w))) in
          (Returned tt,
           {| stdout := stdout w3 ++ [report];
              disk := <[RESULT_FILE := report]> (disk w3);
              written := written w3 ++ [RESULT_FILE];
              now := now w3; tick := S (tick w3) |})
      end
  end.
Proof.
  intros Hlen Hc Hs. unfold main, bind, time_time. rewrite Hlen.
  change (negb (3 =? 3)%nat) with false. cbv beta iota. fold (started w).
  assert (Hloads : forall f, loads json_loads (started w) f = loads json_loads w f)
    by reflexivity.
  rewrite load_json_file_run, Hloads, Hc.
  rewrite load_json_file_run, Hloads, Hs.
  destruct (build_price_dictionary catalogue (started w)) as [[prices|e] w2];
    [|reflexivity].
  destruct (compute_total_sales sales prices w2) as [[total|e] w3]; reflexivity.
Qed.

(** A successful run has three arguments, two lists loaded, a mapping built
    and a total computed. *)
Lemma main_returned argv (w : world) :
  fst (main json_loads format_2f format_float argv w) = Returned tt ->
  length argv = 3%nat
  /\ exists catalogue sales prices w2 total w3,
      loads json_loads w (nth 1 argv EmptyString) = Some (PList catalogue)
      /\ loads json_loads w (nth 2 argv EmptyString) = Some (PList sales)
      /\ build_price_dictionary catalogue (started w) = (Returned prices, w2)
      /\ compute_total_sales sales prices w2 = (Returned total, w3).
Proof.
  intros Hr.
  destruct (Nat.eq_dec (length argv) 3%nat) as [Hlen|Hlen].
  2:{ rewrite main_wrong_argument_count in Hr by assumption. discriminate. }
  split; [exact Hlen|].
  destruct (main_three_arguments json_loads format_2f format_float argv w Hlen)
    as [(catalogue & sales & Hc & Hs)|[line Hx]].
  2:{ rewrite Hx in Hr. discriminate. }
  rewrite (main_run _ _ _ _ Hlen Hc Hs) in Hr.
  destruct (build_price_dictionary catalogue (started w)) as [[prices|e] w2] eqn:Hb;
    [|discriminate].
  destruct (compute_total_sales sales prices w2) as [[total|e] w3] eqn:Hcm;
    [|discriminate].
  exists catalogue, sales, prices, w2, total, w3. repeat split; assumption.
Qed.

(** X10. What a run that completes has done.  Whenever [main] returns
    normally, it had two arguments and both files loaded as lists; it has
    printed one error line per skipped catalogue entry and per sales row
    that does not count, then the report, and the same report, which holds
    no diagnostic, is the content of [SalesResults.txt].  The total of the
    report is the sum of the contributions of the sales under the mapping of
    the catalogue; the elapsed time is the difference of the two clock
    readings. *)
Theorem main_writes_the_report argv (w w' : world) :
  main json_loads format_2f format_float argv w = (Returned tt, w') ->
  exists catalogue sales lines,
    length argv = 3%nat
    /\ loads json_loads w (nth 1 argv EmptyString) = Some (PList catalogue)
    /\ loads json_loads w (nth 2 argv EmptyString) = Some (PList sales)
    /\ let prices := fold_left index_entry catalogue ∅ in
       let report :=
         report_text format_2f format_float
           (nth 1 argv EmptyString) (nth 2 argv EmptyString)
           (sum_of_contributions prices sales)
           (fsub (now w (S (tick w))) (now w (tick w))) in
       stdout w' = stdout w ++ lines ++ [report]
       /\ Forall is_error_line lines
       /\ length lines
          = (count_if skipped_entry catalogue
             + count_if (fun sale => negb (matched prices sale)) sales)%nat
       /\ disk w' !! RESULT_FILE = Some report
       /\ written w' = written w ++ [RESULT_FILE]
       /\ tick w' = S (S (tick w)).
Proof.
  intros H.
  assert (Hr : fst (main json_loads format_2f format_float argv w) = Returned tt)
    by (by rewrite H).
  destruct (main_returned argv w Hr)
    as (Hlen & catalogue & sales & prices & w2 & total & w3 & Hc & Hs & Hb & Hcm).
  rewrite (main_run _ _ _ _ Hlen Hc Hs), Hb, Hcm in H. cbv zeta in H.
  pose proof (catalogue_loop_lines _ _ _ _ _ Hb) as (l1 & Hw2 & Hlen1 & Hall1).
  pose proof (sales_loop_lines _ _ _ _ _ _ Hcm) as (l2 & Hw3 & Hlen2 & Hall2).
  pose proof (compute_total_sales_returned _ _ _ _ _ Hcm) as Ht.
  pose proof (catalogue_loop_returned _ _ _ _ _ Hb) as Hp.
  subst prices total w2 w3. injection H as <-.
  exists catalogue, sales, (l1 ++ l2). simpl.
  split; [exact Hlen|]. split; [exact Hc|]. split; [exact Hs|].
  split; [by rewrite <- !app_assoc|].
  split; [by apply Forall_app|].
  split; [by rewrite length_app, Hlen1, Hlen2|].
  split; [apply lookup_insert_eq|]. split; reflexivity.
Qed.

End RunFacts.

Lemma scenario_run_returns :
  main scenario_json_loads scenario_format scenario_format example_argv scenario_world
  = (Returned tt,
     snd (main scenario_json_loads scenario_format scenario_format example_argv
            scenario_world)).
Proof. vm_compute. reflexivity. Qed.

Lemma main_writes_the_report_witness :
  exists lines,
    stdout (snd (main scenario_json_loads scenario_format scenario_format
                   example_argv scenario_world))
    = lines ++ [report_text scenario_format scenario_format
                  "catalogue.json" "sales.json" thirty pos_zero]
    /\ length lines = 1%nat
    /\ disk (snd (main scenario_json_loads scenario_format scenario_format
                    example_argv scenario_world)) !! RESULT_FILE
       = Some (report_text scenario_format scenario_format
                 "catalogue.json" "sales.json" thirty pos_zero).
Proof.
  destruct (main_writes_the_report scenario_json_loads scenario_format scenario_format
              example_argv scenario_world _ scenario_run_returns)
    as (catalogue & sales & lines & _ & Hc & Hs & Hout & _ & Hlen & Hd & _).
  vm_compute in Hc. injection Hc as Hc. subst catalogue.
  vm_compute in Hs. injection Hs as Hs. subst sales.
  exists lines. split; [|split].
  - rewrite Hout. vm_compute. reflexivity.
  - rewrite Hlen. vm_compute. reflexivity.
  - rewrite Hd. vm_compute. reflexivity.
Defined.

Section RunSafety.

Variable json_loads : string -> option pyval.
Variable format_2f : float -> string.
Variable format_float : float -> string.

(** X11. What the two outcomes of [load_json_file] say.  Whenever it
    returns a value, the file exists and decodes to that value, and nothing
    was printed or written.  Whenever it exits, the status is 1, exactly one
    error line was printed, which names the file and says whether it is
    missing or not valid JSON, no file was written, and the file is indeed
    missing or does not decode. *)
Theorem load_json_file_outcomes (filename : string) (w : world) :
  (forall v w',
      load_json_file json_loads filename w = (Returned v, w') ->
      w' = w
      /\ exists text, disk w !! filename = Some text /\ json_loads text = Some v)
  /\ (forall code w',
         load_json_file json_loads filename w = (Raised (SystemExit code), w') ->
         code = 1
         /\ w' = emit w [match disk w !! filename with
                         | None => "ERROR: File not found: " +:+ filename
                         | Some _ => "ERROR: Invalid JSON format in file: " +:+ filename
                         end]
         /\ match disk w !! filename with
            | None => True
            | Some text => json_loads text = None
            end).
Proof.
  rewrite load_json_file_run. unfold loads.
  destruct (disk w !! filename) as [text|] eqn:Hd.
  - destruct (json_loads text) as [v|] eqn:Hj.
    + split; [|discriminate]. intros v' w' [= <- <-]. eauto.
    + split; [discriminate|]. intros code w' [= <- <-]. done.
  - split; [discriminate|]. intros code w' [= <- <-]. done.
Qed.


End RunSafety.

Lemma load_json_file_outcomes_witness :
  (object_catalogue_world = object_catalogue_world
   /\ exists text,
       disk object_catalogue_world !! "catalogue.json" = Some text
       /\ toy_json_loads text = Some (PDict []))
  /\ (1 = 1
      /\ emit object_catalogue_world ["ERROR: File not found: missing.json"]
         = emit object_catalogue_world
             [match disk object_catalogue_world !! "missing.json" with
              | None => "ERROR: File not found: " +:+ "missing.json"
              | Some _ => "ERROR: Invalid JSON format in file: " +:+ "missing.json"
              end]
      /\ match disk object_catalogue_world !! "missing.json" with
         | None => True
         | Some text => toy_json_loads text = None
         end).
Proof.
  split.
  - apply (proj1 (load_json_file_outcomes toy_json_loads "catalogue.json"
                    object_catalogue_world) (PDict []) object_catalogue_world).
    vm_compute. reflexivity.
  - apply (proj2 (load_json_file_outcomes toy_json_loads "missing.json"
                    object_catalogue_world)
             1 (emit object_catalogue_world ["ERROR: File not found: missing.json"])).
    vm_compute. reflexivity.
Defined.

Section RunTwice.

Variable json_loads : string -> option pyval.
Variable format_2f : float -> string.
Variable format_float : float -> string.

(** X14. The total depends on the two input files only.  When two runs of
    [main] with the same arguments both return normally, in two worlds where
    each input file holds the same text, the reports they write are reports
    of the same total: the console, the clock, the other files and what was
    written before make no difference, and the two texts differ at most in
    the elapsed time.  This covers a second run after a first one that has
    left the input files as they were. *)
Theorem main_total_depends_on_inputs (argv : list string) (w1 w2 w1' w2' : world) :
  disk w1 !! nth 1 argv EmptyString = disk w2 !! nth 1 argv EmptyString ->
  disk w1 !! nth 2 argv EmptyString = disk w2 !! nth 2 argv EmptyString ->
  main json_loads format_2f format_float argv w1 = (Returned tt, w1') ->
  main json_loads format_2f format_float argv w2 = (Returned tt, w2') ->
  let report := report_text format_2f format_float
                  (nth 1 argv EmptyString) (nth 2 argv EmptyString) in
  exists total,
    disk w1' !! RESULT_FILE
    = Some (report total (fsub (now w1 (S (tick w1))) (now w1 (tick w1))))
    /\ disk w2' !! RESULT_FILE
       = Some (report total (fsub (now w2 (S (tick w2))) (now w2 (tick w2)))).
Proof.
  intros Hf1 Hf2 H1 H2 report.
  assert (Hrun : forall w w',
             main json_loads format_2f format_float argv w = (Returned tt, w') ->
             exists catalogue sales,
               loads json_loads w (nth 1 argv EmptyString) = Some (PList catalogue)
               /\ loads json_loads w (nth 2 argv EmptyString) = Some (PList sales)
               /\ disk w' !! RESULT_FILE
                  = Some (report
                            (sum_of_contributions (fold_left index_entry catalogue ∅) sales)
                            (fsub (now w (S (tick w))) (now w (tick w))))).
  { intros w w' H.
    assert (Hr : fst (main json_loads format_2f format_float argv w) = Returned tt)
      by (by rewrite H).
    destruct (main_returned json_loads format_2f format_float argv w Hr)
      as (Hlen & catalogue & sales & prices & wb & total & wc & Hc & Hs & Hb & Hcm).
    rewrite (main_run _ _ _ _ _ _ _ Hlen Hc Hs), Hb, Hcm in H. cbv zeta in H.
    pose proof (catalogue_loop_lines _ _ _ _ _ Hb) as (l1 & Hwb & _).
    pose proof (sales_loop_lines _ _ _ _ _ _ Hcm) as (l2 & Hwc & _).
    pose proof (compute_total_sales_returned _ _ _ _ _ Hcm) as Ht.
    pose proof (catalogue_loop_returned _ _ _ _ _ Hb) as Hp.
    subst prices total wb wc. injection H as <-.
    exists catalogue, sales. split; [exact Hc|]. split; [exact Hs|].
    simpl. apply lookup_insert_eq. }
  destruct (Hrun _ _ H1) as (catalogue & sales & Hc1 & Hs1 & Hd1).
  destruct (Hrun _ _ H2) as (catalogue' & sales' & Hc2 & Hs2 & Hd2).
  unfold loads in Hc1, Hs1, Hc2, Hs2. rewrite Hf1 in Hc1. rewrite Hf2 in Hs1.
  rewrite Hc1 in Hc2. rewrite Hs1 in Hs2.
  injection Hc2 as <-. injection Hs2 as <-.
  eexists. split; [exact Hd1 | exact Hd2].
Qed.

End RunTwice.

Lemma main_total_depends_on_inputs_witness :
  exists total,
    disk (snd (main scenario_json_loads scenario_format scenario_format example_argv
                 scenario_world)) !! RESULT_FILE
    = Some (report_text scenario_format scenario_format "catalogue.json" "sales.json"
              total (fsub pos_zero pos_zero))
    /\ disk (snd (main scenario_json_loads scenario_format scenario_format example_argv
                    (snd (main scenario_json_loads scenario_format scenario_format
                            example_argv scenario_world)))) !! RESULT_FILE
       = Some (report_text scenario_format scenario_format "catalogue.json" "sales.json"
                 total (fsub pos_zero pos_zero)).
Proof.
  apply (main_total_depends_on_inputs scenario_json_loads scenario_format scenario_format
           example_argv scenario_world
           (snd (main scenario_json_loads scenario_format scenario_format example_argv
                   scenario_world))).
  - vm_compute. reflexivity.
  - vm_compute. reflexivity.
  - exact scenario_run_returns.
  - vm_compute. reflexivity.
Defined.

Lemma example_prices_wf : wf_prices example_prices.
Proof.
  unfold wf_prices, example_prices.
  apply map_Forall_insert_2; [reflexivity|].
  apply map_Forall_insert_2; [reflexivity|].
  apply map_Forall_empty.
Qed.

Lemma running_total_nondecreasing_witness :
  compute_total_sales_body example_prices (sale_row "Gadget" (PInt 2))
    (dyadic 10 0) quiet_world
  = (Returned (fadd (dyadic 10 0) (dyadic 20 0)), quiet_world)
  /\ fleb (dyadic 10 0) (fadd (dyadic 10 0) (dyadic 20 0)) = true.
Proof.
  apply (running_total_nondecreasing example_prices [sale_row "Widget" (PInt 4)]
           (sale_row "Gadget" (PInt 2)) quiet_world quiet_world
           (dyadic 10 0) (dyadic 20 0)).
  - exact example_prices_wf.
  - apply List.Forall_cons; [|apply List.Forall_nil].
    intros a Ha. vm_compute in Ha. injection Ha as <-. vm_compute. reflexivity.
  - vm_compute. reflexivity.
  - vm_compute. reflexivity.
  - vm_compute. reflexivity.
Defined.

(** ** Prices and quantities that are not negative *)

Lemma binary_round_aux_sign (sx : bool) (mx ex : Z) :
  0 < mx ->
  binary_round_aux prec emax sx mx ex loc_Exact = S754_zero sx
  \/ binary_round_aux prec emax sx mx ex loc_Exact = S754_infinity sx
  \/ exists m e, binary_round_aux prec emax sx mx ex loc_Exact = S754_finite sx m e.
Proof.
  intros Hm. destruct (binary_round_aux_spec sx mx ex Hm) as (m3 & Hb & _ & Hr).
  cbv zeta in Hr. rewrite Hr. clear Hr.
  set (n1 := Z.max (fexp prec emax (Zdigits2 mx + ex) - ex) 0) in *.
  assert (0 < 2 ^ n1) by (apply Z.pow_pos_nonneg; unfold n1; lia).
  assert (0 <= mx / 2 ^ n1) by (apply Z.div_pos; lia).
  set (n2 := Z.max (fexp prec emax (Zdigits2 m3 + (ex + n1)) - (ex + n1)) 0).
  assert (0 < 2 ^ n2) by (apply Z.pow_pos_nonneg; unfold n2; lia).
  assert (0 <= m3 / 2 ^ n2) by (apply Z.div_pos; lia).
  destruct (m3 / 2 ^ n2) as [|m4|m4]; [auto| |lia].
  destruct (ex + n1 + n2 <=? emax - prec); eauto.
Qed.

(** The product of two finite doubles that are not negative is not
    negative (and not a NaN). *)
Lemma fmul_nonneg (x y : float) :
  fleb pos_zero x = true -> x <> pos_inf ->
  fleb pos_zero y = true -> y <> pos_inf ->
  fleb pos_zero (fmul x y) = true.
Proof.
  intros Hx Hxi Hy Hyi.
  destruct x as [sx|[|]| |[|] mx ex]; try discriminate; try (by destruct Hxi);
    destruct y as [sy|[|]| |[|] my ey]; try discriminate; try (by destruct Hyi);
    try reflexivity.
  unfold fmul, SFmul. simpl xorb.
  destruct (binary_round_aux_sign false (Zpos (mx * my)) (ex + ey) ltac:(lia))
    as [->|[->|(m & e & ->)]]; reflexivity.
Qed.

Lemma float_of_int_nonneg (n : Z) (q : float) :
  0 <= n -> float_of_int n = Returned q ->
  fleb pos_zero q = true /\ q <> pos_inf.
Proof.
  unfold float_of_int, dyadic, binary_normalize. intros Hn.
  destruct n as [|p|p]; [| |lia].
  - intros [= <-]. split; [reflexivity | discriminate].
  - destruct (binary_round_sign false p 0) as [->|[->|(m & e & ->)]].
    + intros [= <-]. split; [reflexivity | discriminate].
    + discriminate.
    + intros [= <-]. split; [reflexivity | discriminate].
Qed.

(** X16. Prices and quantities that are not negative give a total that is
    not negative.  When every price of the mapping is a well-formed finite
    double that is not negative and every valid, matched row has a
    quantity that is not negative (a boolean quantity never is), every
    total that [compute_total_sales] returns is greater than or equal to
    zero; in particular it is not a NaN. *)
Theorem nonnegative_data_nonnegative_total
    (sales : list pyval) (prices : gmap string float) (w : world) (total : float) w' :
  map_Forall (fun _ p => valid p = true /\ fleb pos_zero p = true /\ p <> pos_inf)
             prices ->
  Forall (fun sale =>
            matched prices sale = true ->
            exists n, int_quantity (py_get sale "Quantity") = Some n /\ 0 <= n) sales ->
  compute_total_sales sales prices w = (Returned total, w') ->
  fleb pos_zero total = true /\ is_nan total = false.
Proof.
  intros Hp Hq Hrun.
  assert (Hw : wf_prices prices).
  { intros k p Hk. exact (proj1 (Hp k p Hk)). }
  assert (Ha : Forall (fun sale => forall amount,
                           contribution prices sale = Some amount ->
                           fleb pos_zero amount = true) sales).
  { eapply Forall_impl; [exact Hq|]. simpl. intros sale Hs amount.
    unfold contribution. destruct (matched prices sale) eqn:Hm; [|discriminate].
    destruct (Hs eq_refl) as (n & Hn & Hpos).
    unfold matched in Hm. apply andb_prop in Hm as [_ Hm].
    apply bool_decide_eq_true in Hm. destruct Hm as [price Hprice].
    unfold sale_amount, float_mul. rewrite Hprice. simpl.
    destruct (Hp _ _ Hprice) as (_ & Hge & Hfin).
    destruct (py_get sale "Quantity") as [|b|m| | | |]; try discriminate.
    - simpl. rewrite float_of_bool_returns. intros [= <-].
      apply fmul_nonneg; try assumption; destruct b; (reflexivity || discriminate).
    - simpl in Hn. injection Hn as ->. simpl.
      destruct (float_of_int n) as [q|e] eqn:Hf; [|discriminate].
      intros [= <-]. destruct (float_of_int_nonneg _ _ Hpos Hf).
      by apply fmul_nonneg. }
  unfold compute_total_sales in Hrun.
  destruct (running_total_nonneg prices sales pos_zero w total w' Hw Ha
              eq_refl eq_refl Hrun) as [_ Hz].
  split; [exact Hz|]. destruct total; try reflexivity. discriminate.
Qed.

Lemma nonnegative_data_nonnegative_total_witness :
  fleb pos_zero thirty = true /\ is_nan thirty = false.
Proof.
  apply (nonnegative_data_nonnegative_total example_sales example_prices quiet_world
           thirty
           (emit quiet_world ["ERROR: Product 'Gizmo' not found in catalogue (skipped)"])).
  - apply map_Forall_insert_2; [repeat split; discriminate|].
    apply map_Forall_insert_2; [repeat split; discriminate|].
    apply map_Forall_empty.
  - repeat (apply List.Forall_cons;
            [intros _; eexists; split; [reflexivity | lia]|]).
    apply List.Forall_nil.
  - exact (proj2 example_total).
Defined.

(** ** Well-formed doubles all the way *)

Lemma valid_entry_price_valid item title p :
  (forall x, py_get item "price" = PFloat x -> valid x = true) ->
  valid_entry item = Some (title, p) -> valid p = true.
Proof.
  intros Hx. unfold valid_entry. destruct (skipped_entry item); [discriminate|].
  destruct (py_get item "title"); try discriminate.
  destruct (py_get item "price") as [|b|n|x| | |] eqn:Hp; simpl; try discriminate.
  - rewrite float_of_bool_returns. intros [= _ <-]. destruct b; reflexivity.
  - destruct (float_of_int n) as [q|e] eqn:Hq; [|discriminate].
    intros [= _ <-]. exact (float_of_int_valid _ _ Hq).
  - intros [= _ <-]. exact (Hx x eq_refl).
Qed.

Lemma index_entries_wf catalogue prices :
  wf_catalogue catalogue -> wf_prices prices ->
  wf_prices (fold_left index_entry catalogue prices).
Proof.
  intros Hc. revert prices.
  induction Hc as [|item catalogue Hi _ IH]; intros prices Hp; simpl; [exact Hp|].
  apply IH. unfold index_entry.
  destruct (valid_entry item) as [[title p]|] eqn:Hv; [|exact Hp].
  apply map_Forall_insert_2; [|exact Hp].
  exact (valid_entry_price_valid _ _ _ Hi Hv).
Qed.

Lemma running_total_valid prices sales total (w : world) total' w' :
  wf_prices prices -> valid total = true ->
  for_each (compute_total_sales_body prices) sales total w = (Returned total', w') ->
  valid total' = true.
Proof.
  intros Hw. revert total w.
  induction sales as [|sale sales IH]; intros total w Hv; simpl.
  - unfold ret. intros [= <- _]. exact Hv.
  - unfold bind. destruct (matched prices sale) eqn:Hm.
    + rewrite (sale_body_matched _ _ _ _ Hm).
      destruct (sale_amount prices sale) as [amount|e] eqn:Ha; [|discriminate].
      apply IH. apply fadd_valid; [exact Hv|].
      apply (contribution_valid prices sale); [exact Hw|].
      unfold contribution. rewrite Hm, Ha. reflexivity.
    + destruct (sale_body_skip _ _ total w Hm) as [line ->]. apply IH. exact Hv.
Qed.

(** X17. Well-formed doubles in, well-formed doubles out.  From a catalogue
    whose floating-point prices are well-formed doubles,
    [build_price_dictionary] returns a mapping of well-formed doubles
    (integer and boolean prices convert to finite ones), and on such a
    mapping every total that [compute_total_sales] returns is a well-formed
    double: the representation never leaves binary64. *)
Theorem totals_are_doubles
    (catalogue sales : list pyval) (w : world) (prices : gmap string float) w1 :
  wf_catalogue catalogue ->
  build_price_dictionary catalogue w = (Returned prices, w1) ->
  wf_prices prices
  /\ forall w2 total w3,
      compute_total_sales sales prices w2 = (Returned total, w3) ->
      valid total = true.
Proof.
  intros Hc Hb.
  assert (Hw : wf_prices prices).
  { unfold build_price_dictionary in Hb. apply catalogue_loop_returned in Hb.
    subst prices. apply index_entries_wf; [exact Hc | apply map_Forall_empty]. }
  split; [exact Hw|].
  intros w2 total w3 Hrun. unfold compute_total_sales in Hrun.
  exact (running_total_valid prices sales pos_zero w2 total w3 Hw eq_refl Hrun).
Qed.

Lemma totals_are_doubles_witness :
  wf_prices example_prices
  /\ forall w2 total w3,
      compute_total_sales example_sales example_prices w2 = (Returned total, w3) ->
      valid total = true.
Proof.
  apply (totals_are_doubles example_catalogue example_sales quiet_world
           example_prices quiet_world).
  - repeat (apply List.Forall_cons;
            [intros x Hx; vm_compute in Hx;
             first [discriminate Hx | injection Hx as <-; reflexivity]|]).
    apply List.Forall_nil.
  - exact (proj1 example_total).
Defined.

(** ** Integer prices and quantities *)

Lemma float_of_int_small (n : Z) :
  0 <= n < 2 ^ 53 -> float_of_int n = Returned (dyadic n 0).
Proof.
  intros Hn. unfold float_of_int, dyadic.
  destruct (Z.eq_dec n 0) as [->|Hn0]; [reflexivity|].
  destruct (int_double n ltac:(lia)) as (m & _ & ->). reflexivity.
Qed.

Lemma py_float_int_quantity (v : pyval) (q : Z) :
  int_quantity v = Some q -> py_float v = float_of_int q.
Proof. destruct v; simpl; try discriminate; intros [= <-]; reflexivity. Qed.

Lemma int_quantity_is_int (v : pyval) :
  isinstance_int v = true -> is_Some (int_quantity v).
Proof. destruct v; simpl; try discriminate; eauto. Qed.

Lemma int_contribution_unmatched int_prices sale :
  matched (float_prices int_prices) sale = false ->
  int_contribution int_prices sale = 0.
Proof.
  unfold matched, int_contribution, float_prices.
  destruct (valid_sale sale); simpl; [|reflexivity].
  rewrite lookup_fmap. destruct (int_prices !! product_of sale); simpl;
    [discriminate | reflexivity].
Qed.

Lemma int_contribution_matched int_prices sale :
  matched (float_prices int_prices) sale = true ->
  exists n q,
    int_prices !! product_of sale = Some n
    /\ int_quantity (py_get sale "Quantity") = Some q
    /\ int_contribution int_prices sale = n * q
    /\ sale_amount (float_prices int_prices) sale
       = match float_of_int q with
         | Returned y => Returned (fmul (dyadic n 0) y)
         | Raised e => Raised e
         end.
Proof.
  unfold matched, int_contribution, sale_amount, float_mul, float_prices.
  destruct (valid_sale sale) eqn:Hv; simpl; [|discriminate].
  rewrite lookup_fmap. destruct (int_prices !! product_of sale) as [n|]; simpl;
    [|discriminate].
  intros _. unfold valid_sale in Hv. apply andb_prop in Hv as [_ Hq].
  destruct (int_quantity_is_int _ Hq) as [q Hiq]. rewrite Hiq.
  exists n, q. rewrite (py_float_int_quantity _ _ Hiq). repeat split.
Qed.

Lemma int_total_nonneg int_prices sales :
  map_Forall (fun _ n => 0 <= n < 2 ^ 53) int_prices ->
  Forall (fun sale =>
            matched (float_prices int_prices) sale = true ->
            exists q, int_quantity (py_get sale "Quantity") = Some q
                      /\ 0 <= q < 2 ^ 53) sales ->
  0 <= int_total int_prices sales.
Proof.
  intros Hp Hq. unfold int_total.
  induction Hq as [|sale sales Hs _ IH]; simpl; [lia|].
  destruct (matched (float_prices int_prices) sale) eqn:Hm.
  - destruct (int_contribution_matched _ _ Hm) as (n & q & Hn & Hiq & -> & _).
    destruct (Hs eq_refl) as (q' & Hiq' & Hq'). rewrite Hiq in Hiq'.
    injection Hiq' as <-. pose proof (Hp _ _ Hn). simpl in *. nia.
  - rewrite (int_contribution_unmatched _ _ Hm). lia.
Qed.

Lemma integer_loop int_prices sales (acc : Z) (w : world) :
  map_Forall (fun _ n => 0 <= n < 2 ^ 53) int_prices ->
  Forall (fun sale =>
            matched (float_prices int_prices) sale = true ->
            exists q, int_quantity (py_get sale "Quantity") = Some q
                      /\ 0 <= q < 2 ^ 53) sales ->
  0 <= acc -> acc + int_total int_prices sales < 2 ^ 53 ->
  fst (for_each (compute_total_sales_body (float_prices int_prices)) sales
         (dyadic acc 0) w)
  = Returned (dyadic (acc + int_total int_prices sales) 0).
Proof.
  intros Hp Hq. revert acc w.
  induction Hq as [|sale sales Hs Hrest IH]; intros acc w Hacc Hbound.
  - simpl. unfold int_total. simpl. by rewrite Z.add_0_r.
  - pose proof (int_total_nonneg _ _ Hp Hrest) as Hnn.
    change (int_total int_prices (sale :: sales))
      with (int_contribution int_prices sale + int_total int_prices sales) in *.
    simpl. unfold bind.
    destruct (matched (float_prices int_prices) sale) eqn:Hm.
    + destruct (int_contribution_matched _ _ Hm) as (n & q & Hn & Hiq & Hc & Ha).
      destruct (Hs eq_refl) as (q' & Hiq' & Hq'). rewrite Hiq in Hiq'.
      injection Hiq' as <-. pose proof (Hp _ _ Hn) as Hnb. simpl in Hnb.
      rewrite Hc in *.
      assert (Hnq : 0 <= n * q) by nia.
      rewrite (sale_body_matched _ _ _ _ Hm), Ha, (float_of_int_small q Hq').
      unfold fmul, fadd, dyadic.
      rewrite fmul_int by (try assumption; lia).
      rewrite fadd_int by lia.
      rewrite Z.add_assoc. apply IH; lia.
    + rewrite (int_contribution_unmatched _ _ Hm) in *.
      destruct (sale_body_skip _ _ (dyadic acc 0) w Hm) as [line ->].
      rewrite Z.add_0_l. apply IH; lia.
Qed.

(** X18. Integer sales are totalled exactly.  When the prices of the
    mapping are the floats of integers between 0 and [2^53], every valid,
    matched row has a quantity between 0 and [2^53], and the total computed
    in the integers stays below [2^53], [compute_total_sales] returns the
    float of that integer total: no rounding error enters the sum. *)
Theorem integer_sales_are_exact
    (int_prices : gmap string Z) (sales : list pyval) (w : world) :
  map_Forall (fun _ n => 0 <= n < 2 ^ 53) int_prices ->
  Forall (fun sale =>
            matched (float_prices int_prices) sale = true ->
            exists q, int_quantity (py_get sale "Quantity") = Some q
                      /\ 0 <= q < 2 ^ 53) sales ->
  int_total int_prices sales < 2 ^ 53 ->
  fst (compute_total_sales sales (float_prices int_prices) w)
  = Returned (dyadic (int_total int_prices sales) 0).
Proof.
  intros Hp Hq Hb. unfold compute_total_sales.
  exact (integer_loop int_prices sales 0 w Hp Hq ltac:(lia) Hb).
Qed.

Lemma integer_sales_are_exact_witness :
  fst (compute_total_sales
         [sale_row "Gadget" (PInt 2); PNone; sale_row "Widget" (PBool true)]
         (float_prices (<["Gadget" := 10]> (<["Widget" := 3]> ∅))) quiet_world)
  = Returned (dyadic
                (int_total (<["Gadget" := 10]> (<["Widget" := 3]> ∅))
                   [sale_row "Gadget" (PInt 2); PNone; sale_row "Widget" (PBool true)])
                0).
Proof.
  apply (integer_sales_are_exact (<["Gadget" := 10]> (<["Widget" := 3]> ∅))
           [sale_row "Gadget" (PInt 2); PNone; sale_row "Widget" (PBool true)]
           quiet_world).
  - apply map_Forall_insert_2; [lia|].
    apply map_Forall_insert_2; [lia|]. apply map_Forall_empty.
  - repeat (apply List.Forall_cons;
            [intros Hm;
             first [eexists; split; [reflexivity | simpl; lia]
                   | vm_compute in Hm; discriminate Hm]|]).
    apply List.Forall_nil.
  - vm_compute. reflexivity.
Defined.

(** ** Which fatal diagnostic is printed *)

Section FatalOrder.

Variable json_loads : string -> option pyval.
Variable format_2f : float -> string.
Variable format_float : float -> string.

(** X19. The order of the fatal checks.  With two arguments, [main] stops
    at the first check that fails, in this order: the catalogue file loads,
    the sales file loads, the catalogue is a list, the sales are a list.
    So a catalogue that does not load hides everything about the sales
    file; a sales file that does not load is reported even when the
    catalogue is not a list; and of two inputs that are not lists only the
    catalogue is reported. *)
Theorem main_first_failure (argv : list string) (w : world) :
  length argv = 3%nat ->
  let catalogue_file := nth 1 argv EmptyString in
  let sales_file := nth 2 argv EmptyString in
  let exits line :=
    main json_loads format_2f format_float argv w
    = (Raised (SystemExit 1), emit (started w) [line]) in
  (loads json_loads w catalogue_file = None ->
   exits (match disk w !! catalogue_file with
          | None => "ERROR: File not found: " +:+ catalogue_file
          | Some _ => "ERROR: Invalid JSON format in file: " +:+ catalogue_file
          end))
  /\ (forall catalogue,
         loads json_loads w catalogue_file = Some catalogue ->
         loads json_loads w sales_file = None ->
         exits (match disk w !! sales_file with
                | None => "ERROR: File not found: " +:+ sales_file
                | Some _ => "ERROR: Invalid JSON format in file: " +:+ sales_file
                end))
  /\ (forall catalogue sales,
         loads json_loads w catalogue_file = Some catalogue ->
         loads json_loads w sales_file = Some sales ->
         isinstance_list catalogue = false ->
         exits "ERROR: Catalogue file must contain a list")
  /\ (forall catalogue sales,
         loads json_loads w catalogue_file = Some catalogue ->
         loads json_loads w sales_file = Some sales ->
         isinstance_list catalogue = true ->
         isinstance_list sales = false ->
         exits "ERROR: Sales file must contain a list").
Proof.
  intros Hlen catalogue_file sales_file exits. unfold exits.
  assert (Hloads : forall f, loads json_loads (started w) f = loads json_loads w f)
    by reflexivity.
  unfold main, bind, time_time. rewrite Hlen.
  change (negb (3 =? 3)%nat) with false. cbv beta iota. fold (started w).
  fold catalogue_file sales_file.
  rewrite load_json_file_run, Hloads. repeat split.
  - intros ->. reflexivity.
  - intros catalogue -> Hs. rewrite load_json_file_run, Hloads, Hs. reflexivity.
  - intros catalogue sales -> Hs Hc. rewrite load_json_file_run, Hloads, Hs.
    destruct catalogue; try discriminate; reflexivity.
  - intros catalogue sales -> Hs Hc Hl. rewrite load_json_file_run, Hloads, Hs.
    destruct catalogue; try discriminate.
    destruct sales; try discriminate; reflexivity.
Qed.

End FatalOrder.

Lemma main_first_failure_witness :
  main toy_json_loads toy_format toy_format example_argv object_catalogue_world
  = (Raised (SystemExit 1),
     emit (started object_catalogue_world)
       ["ERROR: Catalogue file must contain a list"]).
Proof.
  apply (proj1 (proj2 (proj2 (main_first_failure toy_json_loads toy_format toy_format
                                example_argv object_catalogue_world eq_refl)))
               (PDict []) (PList [])).
  - vm_compute. reflexivity.
  - vm_compute. reflexivity.
  - reflexivity.
Defined.

(** ** Quantities beyond the doubles *)

(** X20. Where the overflow sets in.  A valid, matched row whose integer
    quantity has magnitude [2^1024] or more raises [OverflowError] when it
    is reached, from any running total and with nothing printed, so a sales
    list that holds such a row yields no total, whatever the other rows and
    the prices are: the call raises.  Quantities between 0 and [2^53]
    always convert. *)
Theorem huge_quantity_raises
    (sales : list pyval) (prices : gmap string float) (w : world)
    (sale : pyval) (q : Z) :
  In sale sales ->
  matched prices sale = true ->
  int_quantity (py_get sale "Quantity") = Some q ->
  (2 ^ 1024 <= Z.abs q ->
   (forall total (w0 : world),
       compute_total_sales_body prices sale total w0 = (Raised OverflowError, w0))
   /\ exists e, fst (compute_total_sales sales prices w) = Raised e)
  /\ (0 <= q < 2 ^ 53 -> is_Some (contribution prices sale)).
Proof.
  intros Hin Hm Hq. split.
  - intros Hhuge.
    assert (Ha : sale_amount prices sale = Raised OverflowError).
    { unfold sale_amount, float_mul.
      rewrite (py_float_int_quantity _ _ Hq), (float_of_int_huge _ Hhuge).
      reflexivity. }
    split.
    + intros total w0. rewrite (sale_body_matched _ _ _ _ Hm), Ha. reflexivity.
    + destruct (compute_total_sales sales prices w) as [[total|e] w'] eqn:Hrun;
        [exfalso|simpl; eauto].
      unfold compute_total_sales in Hrun.
      pose proof (sales_loop_returns _ _ _ _ _ _ Hrun) as Hr.
      unfold quantities_in_range in Hr. rewrite List.Forall_forall in Hr.
      destruct (Hr sale Hin Hm) as [amount Hc].
      unfold contribution in Hc. rewrite Hm, Ha in Hc. discriminate.
  - intros Hsmall. unfold contribution, sale_amount, float_mul.
    rewrite Hm, (py_float_int_quantity _ _ Hq), (float_of_int_small _ Hsmall). eauto.
Qed.

Lemma huge_quantity_raises_witness :
  compute_total_sales_body example_prices (sale_row "Gadget" (PInt (- huge)))
    thirty quiet_world
  = (Raised OverflowError, quiet_world)
  /\ exists e,
      fst (compute_total_sales
             [sale_row "Widget" (PInt 4); sale_row "Gadget" (PInt (- huge))]
             example_prices quiet_world)
      = Raised e.
Proof.
  destruct (proj1 (huge_quantity_raises
                     [sale_row "Widget" (PInt 4); sale_row "Gadget" (PInt (- huge))]
                     example_prices quiet_world
                     (sale_row "Gadget" (PInt (- huge))) (- huge)
                     ltac:(right; left; reflexivity) ltac:(vm_compute; reflexivity)
                     eq_refl))
    as [Hbody Hcall].
  - vm_compute. discriminate.
  - split; [apply Hbody | exact Hcall].
Defined.
